(** * refinery.units.formats: path extraction and memory extraction

    A shallow embedding of [refinery/units/formats/__init__.py]:
    [UnpackResult], [PathPattern], the generator [PathExtractorUnit.process]
    and [MemoryExtractorUnit._read_from_memory], together with the pieces of
    the Python runtime they call (slicing, [bytes.find], [range],
    [fnmatch], [posixpath.join], [zlib.adler32]). *)

From Stdlib Require Import ZArith Ascii String List Bool Lia.
From Stdlib.Strings Require Import Byte.
From stdpp Require Import base option list gmap strings.

Local Open Scope string_scope.
Local Open Scope list_scope.
Local Open Scope Z_scope.

(** ** Exceptions raised by the modelled code *)

Inductive exn : Type :=
  | EndOfStringNotFound
  | IndexError
  | ValueError
  | AttributeError.

Inductive result (A : Type) : Type :=
  | Ok (a : A)
  | Raise (e : exn).
Arguments Ok {A} a.
Arguments Raise {A} e.

Abbreviation bytes := (list byte).

(** ** The Python runtime *)

Module Py.

(** Normalisation of a slice bound against a sequence of length [len]:
    negative bounds count from the end, then the bound is clamped to
    [0 .. len]. *)
Definition clamp (len i : Z) : Z :=
  let i := if i <? 0 then i + len else i in
  Z.max 0 (Z.min len i).

(** [data[start:stop]]; [stop = None] is the open slice [data[start:]]. *)
Definition slice {A} (data : list A) (start : Z) (stop : option Z) : list A :=
  let len := Z.of_nat (length data) in
  let lo := clamp len start in
  let hi := match stop with Some e => clamp len e | None => len end in
  take (Z.to_nat (hi - lo)) (drop (Z.to_nat lo) data).

(** [data[i]] for an integer index: negative indices count from the end,
    anything outside the sequence raises IndexError. *)
Definition index {A} (data : list A) (i : Z) : result A :=
  let len := Z.of_nat (length data) in
  let j := if i <? 0 then i + len else i in
  if (j <? 0) || (len <=? j) then Raise IndexError
  else match data !! Z.to_nat j with
       | Some x => Ok x
       | None => Raise IndexError
       end.

(** Position of the first zero byte of [data], counted from [pos]. *)
Fixpoint find_zero (data : bytes) (pos : Z) : Z :=
  match data with
  | [] => -1
  | b :: rest => if Byte.eqb b x00 then pos else find_zero rest (pos + 1)
  end.

(** [data.find(b'\0', start)]: the lowest index at or after the normalised
    start holding a zero byte, or -1. *)
Definition find0 (data : bytes) (start : Z) : Z :=
  let len := Z.of_nat (length data) in
  let lo := clamp len start in
  if len <? (if start <? 0 then start + len else start) then -1
  else find_zero (drop (Z.to_nat lo) data) lo.

(** [range(start, stop, 2)] as the list it enumerates. *)
Definition range2 (start stop : Z) : list Z :=
  map (fun k => start + 2 * Z.of_nat k)
      (seq 0 (Z.to_nat ((stop - start + 1) / 2))).

(** [any(...)] over a generator whose elements may raise: stops at the
    first true element, an exception met before that propagates. *)
Fixpoint any (xs : list (result bool)) : result bool :=
  match xs with
  | [] => Ok false
  | Ok true :: _ => Ok true
  | Ok false :: rest => any rest
  | Raise e :: _ => Raise e
  end.

(** [posixpath.join(a, b)]. *)
Definition startswith_sep (s : string) : bool :=
  match s with
  | String c _ => Ascii.eqb c "/"%char
  | EmptyString => false
  end.

Fixpoint endswith_sep (s : string) : bool :=
  match s with
  | EmptyString => false
  | String c EmptyString => Ascii.eqb c "/"%char
  | String _ rest => endswith_sep rest
  end.

Definition path_join (a b : string) : string :=
  if startswith_sep b then b
  else if (String.eqb a "") || endswith_sep a then a +:+ b
  else a +:+ "/" +:+ b.

(** [zlib.adler32(data)]. *)
Definition adler_step (st : Z * Z) (b : byte) : Z * Z :=
  let a := (fst st + Z.of_N (Byte.to_N b)) mod 65521 in
  (a, (snd st + a) mod 65521).

Definition adler32 (data : bytes) : Z :=
  let '(a, b) := fold_left adler_step data (1, 0) in
  Z.lor (Z.shiftl b 16) a.

(** [str.encode]: the bytes of a string. *)
Definition encode (s : string) : bytes := list_byte_of_string s.

(** *** [fnmatch]

    [fnmatch.translate] turns a wildcard pattern into a regular expression
    that [re] then matches against the whole name.  The pair is modelled
    by the token list the translation stands for and a matcher for such
    lists: [*] is any run of characters, [?] is one character, [[seq]] and
    [[!seq]] are character classes with ranges, an unclosed bracket and
    every other character stand for themselves.  On POSIX
    [os.path.normcase] is the identity, so matching is case-sensitive. *)

Inductive glob_token : Type :=
  | GStar
  | GAny
  | GClass (negate : bool) (members : list (ascii * ascii))
  | GLit (c : ascii).

Fixpoint find_close (s : list ascii) : option nat :=
  match s with
  | [] => None
  | c :: rest => if Ascii.eqb c "]" then Some O else S <$> find_close rest
  end.

Fixpoint members (s : list ascii) : list (ascii * ascii) :=
  match s with
  | [] => []
  | lo :: rest =>
      match rest with
      | "-"%char :: hi :: rest' => (lo, hi) :: members rest'
      | _ => (lo, lo) :: members rest
      end
  end.

Definition class_of (stuff : list ascii) : glob_token :=
  match stuff with
  | "!"%char :: ms => GClass true (members ms)
  | _ => GClass false (members stuff)
  end.

(** The text after an opening bracket: the class it denotes and how many
    characters it takes, or nothing when the bracket is never closed. *)
Definition bracket (rest : list ascii) : option (glob_token * nat) :=
  let j0 := match rest with "!"%char :: _ => 1%nat | _ => 0%nat end in
  let j1 := match drop j0 rest with "]"%char :: _ => S j0 | _ => j0 end in
  match find_close (drop j1 rest) with
  | None => None
  | Some d => Some (class_of (take (j1 + d)%nat rest), S (j1 + d))
  end.

Fixpoint translate_from (skip : nat) (pat : list ascii) : list glob_token :=
  match pat with
  | [] => []
  | c :: rest =>
      match skip with
      | S k => translate_from k rest
      | O =>
          if Ascii.eqb c "*" then GStar :: translate_from O rest
          else if Ascii.eqb c "?" then GAny :: translate_from O rest
          else if Ascii.eqb c "[" then
            match bracket rest with
            | Some (cls, n) => cls :: translate_from n rest
            | None => GLit c :: translate_from O rest
            end
          else GLit c :: translate_from O rest
      end
  end.

Definition translate (pat : string) : list glob_token :=
  translate_from O (list_ascii_of_string pat).

Definition in_range (c : ascii) (r : ascii * ascii) : bool :=
  (N_of_ascii (fst r) <=? N_of_ascii c)%N && (N_of_ascii c <=? N_of_ascii (snd r))%N.

Definition token_match (t : glob_token) (c : ascii) : bool :=
  match t with
  | GStar | GAny => true
  | GClass negate ms => xorb negate (existsb (in_range c) ms)
  | GLit c' => Ascii.eqb c c'
  end.

(** Anchored match of a token list against a whole name. *)
Fixpoint fullmatch (ts : list glob_token) : list ascii -> bool :=
  match ts with
  | [] => fun s => match s with [] => true | _ => false end
  | GStar :: ts' =>
      fix star (s : list ascii) : bool :=
        fullmatch ts' s || match s with [] => false | _ :: s' => star s' end
  | t :: ts' =>
      fun s => match s with
               | [] => false
               | c :: s' => token_match t c && fullmatch ts' s'
               end
  end.

(** [fnmatch.fnmatch(name, pat)]. *)
Definition fnmatch (name pat : string) : bool :=
  fullmatch (translate pat) (list_ascii_of_string name).

End Py.

(** ** [pathspec] *)

(** ['/'.join(re.split(R'[\\\/]', expression))]: every backslash becomes a
    forward slash. *)
Fixpoint pathspec (expression : string) : string :=
  match expression with
  | EmptyString => EmptyString
  | String c rest =>
      String (if Ascii.eqb c "\" then "/"%char else c) (pathspec rest)
  end.

(** ** [PathPattern] *)

(** A compiled regular expression is kept as its [fullmatch] predicate.  The
    attribute [stops] is absent ([None]) on an object built from a string
    with [regex=True], because [__init__] never assigns it on that path. *)
Record PathPattern : Type := {
  stops : option (list string);
  pattern : string -> bool
}.

(** The first argument of [PathPattern.__init__]: an [re.Pattern] or a
    string. *)
Inductive pattern_arg : Type :=
  | RePattern (fullmatch : string -> bool)
  | Str (pp : string).

Definition is_stop_char (c : ascii) : bool :=
  Ascii.eqb c "/" || Ascii.eqb c "*" || Ascii.eqb c "?".

(** [[pp[:k] for k, c in enumerate(pp) if c in '/*?']] *)
Definition stops_of (pp : string) : list string :=
  omap (fun k => match String.get k pp with
                 | Some c => if is_stop_char c then Some (substring 0 k pp) else None
                 | None => None
                 end)
       (seq 0 (String.length pp)).

Module PathPattern.

(** [__init__(self, pp, regex=False)]; [re_compile] is the regular
    expression engine, [re.compile(s).fullmatch]. *)
Definition init (re_compile : string -> string -> bool)
    (pp : pattern_arg) (regex : bool) : PathPattern :=
  match pp with
  | RePattern re => {| stops := Some []; pattern := re |}
  | Str pp =>
      if regex then {| stops := None; pattern := re_compile pp |}
      else {| stops := Some (stops_of pp);
              pattern := fun path => Py.fnmatch path pp |}
  end.

(** The construction the unit uses: [PathPattern(p)] for a string [p]. *)
Definition wildcard (pp : string) : PathPattern :=
  init (fun _ _ => false) (Str pp) false.

Definition reach (self : PathPattern) (path : string) : result bool :=
  match stops self with
  | None => Raise AttributeError
  | Some [] => Ok true
  | Some ss => Ok (existsb (fun stop => Py.fnmatch path stop) ss)
  end.

Definition check (self : PathPattern) (path : string) : bool :=
  pattern self path.

End PathPattern.

(** ** [UnpackResult] *)

(** The attribute [data] holds bytes or a zero-argument callable.  A callable
    is a Python function and need not be pure: it is given the number of
    producer calls made so far, so two calls of one producer may differ. *)
Inductive payload : Type :=
  | Concrete (b : bytes)
  | Callable (f : nat -> bytes).

Record UnpackResult : Type := {
  path : string;
  data : payload
}.

Module UnpackResult.

(** [get_data(self)], with [self] passed in and out and the count of
    producer calls threaded through. *)
Definition get_data (self : UnpackResult) (clock : nat)
    : bytes * UnpackResult * nat :=
  match data self with
  | Callable f =>
      let b := f clock in
      (b, {| path := path self; data := Concrete b |}, S clock)
  | Concrete b => (b, self, clock)
  end.

(** [n] calls of [get_data] in a row, with everything they return. *)
Fixpoint get_data_times (n : nat) (self : UnpackResult) (clock : nat)
    : list bytes * UnpackResult * nat :=
  match n with
  | O => ([], self, clock)
  | S n' =>
      let '(b, self', clock') := get_data self clock in
      let '(bs, self'', clock'') := get_data_times n' self' clock' in
      (b :: bs, self'', clock'')
  end.

End UnpackResult.

(** ** The store of objects and the observable events of a run *)

Abbreviation addr := nat.

Inductive event : Type :=
  | Invoke (a : addr)
  | LogDebug
  | LogWarn (path : string)
  | LogInfo (path : string)
  | YieldPath (chunk : bytes)
  | YieldChunk (payload : bytes) (label : string).

Record state : Type := {
  heap : list UnpackResult;
  clock : nat;
  trace : list event
}.

Definition M (A : Type) : Type := state -> A * state.

Definition ret {A} (x : A) : M A := fun st => (x, st).

Definition bind {A B} (m : M A) (k : A -> M B) : M B :=
  fun st => let '(x, st') := m st in k x st'.

Notation "x <- m ;; k" := (bind m (fun x => k))
  (at level 100, m at next level, right associativity).
Notation "m ;;; k" := (bind m (fun _ => k))
  (at level 100, right associativity).

Definition emit (e : event) : M unit :=
  fun st => (tt, {| heap := heap st; clock := clock st; trace := trace st ++ [e] |}).

(** [result.path] for the object at address [a]; every address the code
    holds refers to an object, the other case is never reached. *)
Definition path_at (h : list UnpackResult) (a : addr) : string :=
  match h !! a with Some r => path r | None => "" end.

Definition attr_path (a : addr) : M string :=
  fun st => (path_at (heap st) a, st).

(** [result.get_data()] for the object at address [a]: the object is updated
    in place and every producer call is recorded. *)
Definition get_data (a : addr) : M bytes :=
  fun st =>
    match heap st !! a with
    | Some r =>
        let '(b, r', clock') := UnpackResult.get_data r (clock st) in
        (b, {| heap := <[a := r']> (heap st);
               clock := clock';
               trace := trace st ++ repeat (Invoke a) (clock' - clock st) |})
    | None => ([], st)
    end.

(** ** [PathExtractorUnit] *)

Record PathExtractorArgs : Type := {
  patterns : list PathPattern;
  list_ : bool;
  join : bool
}.

Definition default_paths : list string := ["*"].

Module PathExtractorUnit.

(** [__init__]: every path is wrapped as [PathPattern(p)]; the switch
    [regex] is accepted and not passed on. *)
Definition init (paths : list string) (list_ join regex : bool)
    : PathExtractorArgs :=
  {| patterns := map PathPattern.wildcard paths;
     list_ := list_;
     join := join |}.

Definition _check_reachable (args : PathExtractorArgs) (path : string)
    : result bool :=
  Py.any (map (fun p => PathPattern.reach p path) (patterns args)).

Definition _check_path (args : PathExtractorArgs) (path : string) : bool :=
  existsb (fun p => PathPattern.check p path) (patterns args).

(** The first loop of [process], over the objects [unpack] yields. *)
Fixpoint collect (args : PathExtractorArgs) (unpacked results : list addr)
    : M (list addr) :=
  match unpacked with
  | [] => ret results
  | result :: rest =>
      p <- attr_path result ;;
      if _check_path args p then
        (if negb (list_ args) then get_data result ;;; ret tt else ret tt) ;;;
        collect args rest (results ++ [result])
      else collect args rest results
  end.

(** [paths[path].add(csum)] on a [defaultdict(set)]. *)
Definition ledger_add (paths : gmap string (gset Z)) (p : string) (csum : Z)
    : gmap string (gset Z) :=
  <[p := default ∅ (paths !! p) ∪ {[csum]}]> paths.

(** Lines 119 to 126: join, then yield the path or the labelled chunk. *)
Definition deliver (args : PathExtractorArgs) (root : string)
    (result : addr) (p : string) : M unit :=
  let p := if join args then Py.path_join root p else p in
  if list_ args then emit (YieldPath (Py.encode p))
  else
    emit (LogInfo p) ;;;
    d <- get_data result ;;
    emit (YieldChunk d p).

(** The body of the inner loop for one pattern and one collected object;
    the ledger [paths] is passed in and out. *)
Definition visit (args : PathExtractorArgs) (root : string)
    (p : PathPattern) (paths : gmap string (gset Z)) (result : addr)
    : M (gmap string (gset Z)) :=
  s <- attr_path result ;;
  if negb (PathPattern.check p s) then ret paths
  else if negb (list_ args) then
    d <- get_data result ;;
    let csum := Py.adler32 d in
    match paths !! s with
    | Some seen =>
        if bool_decide (csum ∈ seen) then ret paths
        else
          emit (LogWarn s) ;;;
          deliver args root result s ;;;
          ret (ledger_add paths s csum)
    | None =>
        deliver args root result s ;;;
        ret (ledger_add paths s csum)
    end
  else deliver args root result s ;;; ret paths.

Fixpoint for_results (args : PathExtractorArgs) (root : string)
    (p : PathPattern) (results : list addr) (paths : gmap string (gset Z))
    : M (gmap string (gset Z)) :=
  match results with
  | [] => ret paths
  | result :: rest =>
      paths' <- visit args root p paths result ;;
      for_results args root p rest paths'
  end.

Fixpoint for_patterns (args : PathExtractorArgs) (root : string)
    (ps : list PathPattern) (results : list addr)
    (paths : gmap string (gset Z)) : M (gmap string (gset Z)) :=
  match ps with
  | [] => ret paths
  | p :: rest =>
      emit LogDebug ;;;
      paths' <- for_results args root p results paths ;;
      for_patterns args root rest results paths'
  end.

(** [process(self, data)]: [meta_path] is [data['path']] when the input
    chunk has it, [unpacked] are the objects [self.unpack(data)] yields, in
    order.  [root] is only read when [join] is set. *)
Definition process (args : PathExtractorArgs) (meta_path : option string)
    (unpacked : list addr) : M unit :=
  let root := if join args then default "" meta_path else "" in
  results <- collect args unpacked [] ;;
  for_patterns args root (patterns args) results ∅ ;;;
  ret tt.

(** A complete run on a fresh store: the final store and the events. *)
Definition run (args : PathExtractorArgs) (meta_path : option string)
    (objects : list UnpackResult) (unpacked : list addr) : state :=
  snd (process args meta_path unpacked
         {| heap := objects; clock := O; trace := [] |}).

End PathExtractorUnit.

(** The chunks a run hands to its consumer, in order. *)
Definition emissions (tr : list event) : list (bytes * string) :=
  omap (fun e => match e with YieldChunk d l => Some (d, l) | _ => None end) tr.

Definition listed (tr : list event) : list bytes :=
  omap (fun e => match e with YieldPath c => Some c | _ => None end) tr.

Definition warnings (tr : list event) : list string :=
  omap (fun e => match e with LogWarn s => Some s | _ => None end) tr.

(** The label [l] is what joining gives for the path [s] under [root]; it is
    [s] itself when [s] is absolute and when [root] is empty. *)
Definition joined_label (root s l : string) : Prop :=
  l = Py.path_join root s /\
  (Py.startswith_sep s = true -> l = s) /\
  (root = "" -> l = s).

(** The event [e] belongs to the object with the path [s] and the bytes [d]:
    a chunk carries [d] under the joined label of [s], a listed path is the
    encoded joined label of [s], and the label logged is the joined label of
    [s]. *)
Definition joined_event (root s : string) (d : bytes) (e : event) : Prop :=
  match e with
  | YieldChunk d' l => d' = d /\ joined_label root s l
  | YieldPath c => exists l, c = Py.encode l /\ joined_label root s l
  | LogInfo l => joined_label root s l
  | _ => True
  end.

(** How often the producer of the object at [a] was called. *)
Definition invocations (a : addr) (tr : list event) : nat :=
  length (omap (fun e => match e with
                         | Invoke a' => if Nat.eqb a' a then Some tt else None
                         | _ => None
                         end) tr).

(** ** [MemoryExtractorUnit] *)

Module MemoryExtractorUnit.

(** The arguments [_read_from_memory] reads; [offset] is only handed to
    the offset oracle, whose answer is an argument below. *)
Record Args : Type := {
  count : Z;
  utf16 : bool;
  ascii : bool
}.

Definition init (count : Z) (utf16 ascii : bool) : result Args :=
  if utf16 && ascii then Raise ValueError
  else Ok {| count := count; utf16 := utf16; ascii := ascii |}.

Definition is_zero (b : byte) : bool := Byte.eqb b x00.

(** The [for end in range(start, len(data), 2)] loop with its [else]:
    [not data[end] and not data[end + 1]] reads the second byte only when
    the first is zero. *)
Fixpoint utf16_scan (data : bytes) (ends : list Z) : result Z :=
  match ends with
  | [] => Raise EndOfStringNotFound
  | end_ :: rest =>
      match Py.index data end_ with
      | Raise e => Raise e
      | Ok lo =>
          if negb (is_zero lo) then utf16_scan data rest
          else
            match Py.index data (end_ + 1) with
            | Raise e => Raise e
            | Ok hi => if is_zero hi then Ok end_ else utf16_scan data rest
            end
      end
  end.

(** Lines 145 to 154: the end offset after the terminator search. *)
Definition terminator (args : Args) (data : bytes) (start : Z)
    (end_ : option Z) : result (option Z) :=
  if ascii args then
    let e := Py.find0 data start in
    if e <? 0 then Raise EndOfStringNotFound else Ok (Some e)
  else if utf16 args then
    match utf16_scan data (Py.range2 start (Z.of_nat (length data))) with
    | Ok e => Ok (Some e)
    | Raise e => Raise e
    end
  else Ok end_.

(** Lines 155 to 157: the end offset after the count bound. *)
Definition bound (args : Args) (start : Z) (end_ : option Z) : option Z :=
  if count args =? 0 then end_
  else
    let lbound := start + count args in
    match end_ with
    | None => Some lbound
    | Some e => Some (Z.min e lbound)
    end.

(** [_read_from_memory(self, data, offset_oracle)], given the pair that
    [offset_oracle(self.args.offset)] returns. *)
Definition _read_from_memory (args : Args) (data : bytes)
    (oracle : Z * option Z) : result bytes :=
  let '(start, end_) := oracle in
  match terminator args data start end_ with
  | Raise e => Raise e
  | Ok end_ => Ok (Py.slice data start (bound args start end_))
  end.

End MemoryExtractorUnit.

(** ** Specification vocabulary for the memory reader *)

(** Byte [i] of [data] exists and is zero. *)
Definition zero_at (data : bytes) (i : Z) : Prop :=
  0 <= i /\ data !! Z.to_nat i = Some x00.

(** [i] is the index of the first zero byte at or after [s]. *)
Definition first_zero_from (data : bytes) (s i : Z) : Prop :=
  s <= i /\ zero_at data i /\ forall j, s <= j < i -> ~ zero_at data j.

(** An aligned pair of zero bytes lies at [e], an even number of bytes
    after [start] and inside the buffer. *)
Definition aligned_zero_pair (data : bytes) (start e : Z) : Prop :=
  (exists k : nat, e = start + 2 * Z.of_nat k) /\
  zero_at data e /\ zero_at data (e + 1).

(** ** Specification vocabulary for runs of [process] *)

(** The object at [a] holds the bytes [b]. *)
Definition materialised (st : state) (a : addr) (s : string) (b : bytes) : Prop :=
  heap st !! a = Some {| path := s; data := Concrete b |}.

(** [st] with the events [evs] appended to its trace. *)
Definition log (st : state) (evs : list event) : state :=
  {| heap := heap st; clock := clock st; trace := trace st ++ evs |}.

(** The label [process] gives to what it emits for the object at [a] of the
    store [h0]. *)
Definition label (args : PathExtractorArgs) (root : string)
    (h0 : list UnpackResult) (a : addr) : string :=
  if join args then Py.path_join root (path_at h0 a) else path_at h0 a.

(** The objects that pass the first loop. *)
Definition wanted (args : PathExtractorArgs) (h0 : list UnpackResult)
    (unpacked : list addr) (a : addr) : Prop :=
  a ∈ unpacked /\ PathExtractorUnit._check_path args (path_at h0 a) = true.

(** Every object of [st] has the path it had in [h0]. *)
Definition stable (h0 : list UnpackResult) (st : state) : Prop :=
  forall a, path_at (heap st) a = path_at h0 a.

(** From [st] to [st'] paths are kept, the new events are within [R] and
    the objects outside [Q] are untouched. *)
Definition follows (h0 : list UnpackResult) (R : event -> Prop)
    (Q : addr -> Prop) (st st' : state) : Prop :=
  stable h0 st' /\
  (exists evs, trace st' = trace st ++ evs /\ Forall R evs) /\
  (forall a, ~ Q a -> heap st' !! a = heap st !! a).

(** The computation [m] returns a value within [post] and keeps within [R]
    and [Q], from every state with the paths of [h0]. *)
Definition sound (h0 : list UnpackResult) (R : event -> Prop)
    (Q : addr -> Prop) {A} (m : M A) (post : A -> Prop) : Prop :=
  forall st, stable h0 st -> post (m st).1 /\ follows h0 R Q st (m st).2.

(** ** The second loop as a function of paths and bytes

    Outside list mode every collected object holds its bytes when the second
    loop starts, so that loop only reads the objects: what it emits is a
    function of their paths and bytes.  These definitions say which; the
    lemmas [for_results_replay] and [for_patterns_replay] relate them to the
    loops of [process]. *)

(** The bytes the object at [a] holds, if it holds any. *)
Definition bytes_at (h : list UnpackResult) (a : addr) : bytes :=
  match h !! a with
  | Some r => match data r with Concrete d => d | Callable _ => [] end
  | None => []
  end.

(** The object at [a] holds bytes: [get_data] will call no producer. *)
Definition settled (h : list UnpackResult) (a : addr) : Prop :=
  match h !! a with
  | Some r => match data r with Concrete _ => True | Callable _ => False end
  | None => True
  end.

(** The object at [a] still holds a producer. *)
Definition deferred (h : list UnpackResult) (a : addr) : bool :=
  match h !! a with
  | Some r => match data r with Concrete _ => false | Callable _ => true end
  | None => false
  end.

Definition item_at (h : list UnpackResult) (a : addr) : string * bytes :=
  (path_at h a, bytes_at h a).

(** One turn of the inner loop outside list mode, for an object with the
    path [s] and the bytes [d]: the new ledger and the events. *)
Definition turn (args : PathExtractorArgs) (root : string) (p : PathPattern)
    (paths : gmap string (gset Z)) (s : string) (d : bytes)
    : gmap string (gset Z) * list event :=
  if negb (PathPattern.check p s) then (paths, [])
  else
    let l := if join args then Py.path_join root s else s in
    let csum := Py.adler32 d in
    match paths !! s with
    | Some seen =>
        if bool_decide (csum ∈ seen) then (paths, [])
        else (PathExtractorUnit.ledger_add paths s csum,
              [LogWarn s; LogInfo l; YieldChunk d l])
    | None =>
        (PathExtractorUnit.ledger_add paths s csum,
         [LogInfo l; YieldChunk d l])
    end.

Fixpoint replay_results (args : PathExtractorArgs) (root : string)
    (p : PathPattern) (items : list (string * bytes))
    (paths : gmap string (gset Z)) : gmap string (gset Z) * list event :=
  match items with
  | [] => (paths, [])
  | (s, d) :: rest =>
      let '(paths1, evs1) := turn args root p paths s d in
      let '(paths2, evs2) := replay_results args root p rest paths1 in
      (paths2, evs1 ++ evs2)
  end.

Fixpoint replay_patterns (args : PathExtractorArgs) (root : string)
    (ps : list PathPattern) (items : list (string * bytes))
    (paths : gmap string (gset Z)) : gmap string (gset Z) * list event :=
  match ps with
  | [] => (paths, [])
  | p :: rest =>
      let '(paths1, evs1) := replay_results args root p items paths in
      let '(paths2, evs2) := replay_patterns args root rest items paths1 in
      (paths2, LogDebug :: evs1 ++ evs2)
  end.

(** The ledger [paths] has the checksum [c] under the path [s]. *)
Definition in_ledger (paths : gmap string (gset Z)) (s : string) (c : Z)
    : bool :=
  match paths !! s with
  | Some cs => bool_decide (c ∈ cs)
  | None => false
  end.

(** What identifies a chunk in the ledger: its label and its checksum. *)
Definition chunk_key (chunk : bytes * string) : string * Z :=
  (chunk.2, Py.adler32 chunk.1).

(** The objects [unpack] yields that pass the first loop, in order. *)
Definition collected (args : PathExtractorArgs) (h : list UnpackResult)
    (unpacked : list addr) : list addr :=
  filter (fun a => PathExtractorUnit._check_path args (path_at h a) = true)
         unpacked.

(** The objects among [unpacked] whose path the pattern [p] matches. *)
Definition matching (p : PathPattern) (h : list UnpackResult)
    (unpacked : list addr) : list addr :=
  filter (fun a => PathPattern.check p (path_at h a) = true) unpacked.

Definition is_invoke (e : event) : Prop :=
  match e with Invoke _ => True | _ => False end.

(** A character that stands for itself in a wildcard pattern. *)
Definition literal_char (c : ascii) : bool :=
  negb (Ascii.eqb c "*" || Ascii.eqb c "?" || Ascii.eqb c "[").

(** [reach] as a truth value, for a wildcard pattern [pp]. *)
Definition reaches (pp path : string) : bool :=
  match stops_of pp with
  | [] => true
  | ss => existsb (fun stop => Py.fnmatch path stop) ss
  end.

(** * Properties *)

(** ** Wildcard matching and [PathPattern] *)

Section Wildcards.

Lemma list_ascii_nil (s : string) : list_ascii_of_string s = [] <-> s = "".
Proof. destruct s; simpl; split; congruence. Qed.

(** The empty pattern matches the empty name and nothing else. *)
Lemma fnmatch_empty_pattern (name : string) :
  Py.fnmatch name "" = true <-> name = "".
Proof.
  unfold Py.fnmatch, Py.translate. simpl.
  rewrite <- list_ascii_nil.
  destruct (list_ascii_of_string name); split; congruence.
Qed.

Lemma existsb_false {A} (f : A -> bool) (l : list A) :
  existsb f l = false <-> forall x, x ∈ l -> f x = false.
Proof.
  induction l as [|a l IH]; simpl.
  - split; [intros _ x Hx; inversion Hx | done].
  - rewrite orb_false_iff, IH. split.
    + intros [Ha Hl] x Hx. apply elem_of_cons in Hx as [->|Hx]; auto.
    + intros H. split; [apply H; left | intros x Hx; apply H; by right].
Qed.

Lemma existsb_true {A} (f : A -> bool) (l : list A) :
  existsb f l = true <-> exists x, x ∈ l /\ f x = true.
Proof.
  rewrite existsb_exists. split; intros (x & Hx & Hf); exists x; split; auto;
    by apply list_elem_of_In.
Qed.

(** A pattern without [/], [*] and [?] derives no stop. *)
Lemma stops_of_plain (pp : string) :
  forallb (fun c => negb (is_stop_char c)) (list_ascii_of_string pp) = true ->
  stops_of pp = [].
Proof.
  intros Hplain. unfold stops_of.
  assert (Hget : forall k c, String.get k pp = Some c -> is_stop_char c = false).
  { clear -Hplain. induction pp as [|a pp IH]; intros k c; simpl in *.
    - discriminate.
    - apply andb_true_iff in Hplain as [Ha Hpp].
      destruct k as [|k].
      + intros [= <-]. by apply negb_true_iff.
      + by apply IH. }
  generalize (seq 0 (String.length pp)). intros ks.
  induction ks as [|k ks IH]; simpl; [done|].
  destruct (String.get k pp) as [c|] eqn:Hk; [|done].
  by rewrite (Hget _ _ Hk).
Qed.

(** A pattern that starts with [/], [*] or [?] has the empty stop. *)
Lemma stops_of_head (c : ascii) (rest : string) :
  is_stop_char c = true -> "" ∈ stops_of (String c rest).
Proof.
  intros Hc. unfold stops_of. simpl. rewrite Hc. left.
Qed.

End Wildcards.

(** C1, as amended: for a wildcard pattern that contains none of [/], [*]
    and [?], every path that passes [check] also passes [reach] (no stop is
    derived, so [reach] answers true).  In general [reach] answers true
    exactly when no stop is derived or the path matches one of the stops,
    and the stops are the prefixes of the pattern that end right before a
    [/], [*] or [?]. *)
Theorem C1_check_implies_reach_without_stops (pp s : string) :
  (forallb (fun c => negb (is_stop_char c)) (list_ascii_of_string pp) = true ->
   PathPattern.check (PathPattern.wildcard pp) s = true ->
   PathPattern.reach (PathPattern.wildcard pp) s = Ok true) /\
  (PathPattern.reach (PathPattern.wildcard pp) s = Ok true <->
   stops_of pp = [] \/
   exists stop, stop ∈ stops_of pp /\ Py.fnmatch s stop = true) /\
  (forall stop,
     stop ∈ stops_of pp <->
     exists k c, String.get k pp = Some c /\ is_stop_char c = true /\
                 stop = substring 0 k pp).
Proof.
  split; [|split].
  - intros Hplain _.
    unfold PathPattern.reach, PathPattern.wildcard, PathPattern.init. simpl.
    by rewrite (stops_of_plain pp Hplain).
  - unfold PathPattern.reach, PathPattern.wildcard, PathPattern.init.
    simpl stops. destruct (stops_of pp) as [|s0 ss] eqn:Hstops.
    + split; [by left | done].
    + split.
      * intros [= Hex]. right.
        exact (proj1 (existsb_true (fun stop => Py.fnmatch s stop) (s0 :: ss)) Hex).
      * intros [|Hex]; [done|]. f_equal.
        exact (proj2 (existsb_true (fun stop => Py.fnmatch s stop) (s0 :: ss)) Hex).
  - intros stop. unfold stops_of. rewrite list_elem_of_omap. split.
    + intros (k & _ & Hk). destruct (String.get k pp) as [c|] eqn:Hget; [|done].
      destruct (is_stop_char c) eqn:Hc; [|done].
      injection Hk as <-. by exists k, c.
    + intros (k & c & Hget & Hc & ->). exists k. split.
      * apply elem_of_seq. split; [lia|]. simpl.
        clear -Hget. revert k Hget.
        induction pp as [|a pp IH]; intros k Hget; simpl in *; [done|].
        destruct k as [|k]; [lia|]. apply IH in Hget. lia.
      * by rewrite Hget, Hc.
Qed.

Lemma C1_check_implies_reach_without_stops_witness :
  forallb (fun c => negb (is_stop_char c))
          (list_ascii_of_string "readme.txt") = true /\
  PathPattern.check (PathPattern.wildcard "readme.txt") "readme.txt" = true /\
  PathPattern.reach (PathPattern.wildcard "readme.txt") "readme.txt" = Ok true.
Proof.
  split; [reflexivity|]. split; [reflexivity|].
  apply (proj1 (C1_check_implies_reach_without_stops "readme.txt" "readme.txt"));
    reflexivity.
Defined.

(** C1, as stated, fails: the pattern [*.txt] matches the path [x.txt] in
    full, yet its only stop is the empty string and [reach] answers false. *)
Lemma C1_reach_misses_full_match :
  PathPattern.check (PathPattern.wildcard "*.txt") "x.txt" = true /\
  PathPattern.reach (PathPattern.wildcard "*.txt") "x.txt" = Ok false.
Proof. split; reflexivity. Qed.

(** C9: a wildcard pattern that starts with [/], [*] or [?] has the empty
    string among its stops; the empty stop matches the empty path only; so
    [reach] is false on every non-empty path that matches no other stop, and
    with the default paths [_check_reachable] is false on every non-empty
    path. *)
Theorem C9_leading_wildcard_blocks_reach (c : ascii) (rest : string)
    (Hc : is_stop_char c = true) :
  let pp := String c rest in
  "" ∈ stops_of pp /\
  (forall path, Py.fnmatch path "" = true <-> path = "") /\
  (forall path, path <> "" ->
     (forall stop, stop ∈ stops_of pp -> stop <> "" ->
        Py.fnmatch path stop = false) ->
     PathPattern.reach (PathPattern.wildcard pp) path = Ok false) /\
  (forall list_ join regex path, path <> "" ->
     PathExtractorUnit._check_reachable
       (PathExtractorUnit.init default_paths list_ join regex) path = Ok false).
Proof.
  intros pp. split; [by apply stops_of_head|].
  split; [apply fnmatch_empty_pattern|]. split.
  - intros path Hne Hother.
    unfold PathPattern.reach, PathPattern.wildcard, PathPattern.init. simpl stops.
    pose proof (stops_of_head c rest Hc) as Hin. fold pp in Hin.
    destruct (stops_of pp) as [|s0 ss] eqn:Hstops; [inversion Hin|].
    f_equal. apply existsb_false. intros stop Hstop.
    destruct (decide (stop = "")) as [->|Hs].
    + destruct (Py.fnmatch path "") eqn:Hm; [|done].
      by apply fnmatch_empty_pattern in Hm.
    + by apply Hother.
  - intros list_ join regex path Hne.
    unfold PathExtractorUnit._check_reachable, PathExtractorUnit.init,
      default_paths. simpl.
    destruct (Py.fnmatch path "") eqn:Hm; [|done].
    by apply fnmatch_empty_pattern in Hm.
Qed.

Lemma C9_leading_wildcard_blocks_reach_witness :
  is_stop_char "*" = true /\
  PathPattern.reach (PathPattern.wildcard "*.txt") "x.txt" = Ok false.
Proof.
  split; [reflexivity|].
  apply (C9_leading_wildcard_blocks_reach "*"%char ".txt" eq_refl).
  - discriminate.
  - intros stop Hstop Hne. vm_compute in Hstop.
    apply list_elem_of_singleton in Hstop. congruence.
Defined.

(** ** The memory reader *)

Section MemoryReader.

Import MemoryExtractorUnit.

Lemma clamp_bounds (len i : Z) : 0 <= len -> 0 <= Py.clamp len i <= len.
Proof. unfold Py.clamp. destruct (i <? 0); lia. Qed.

Lemma is_zero_true (b : byte) : Byte.eqb b x00 = true <-> b = x00.
Proof. split; [apply byte_dec_bl | apply byte_dec_lb]. Qed.

(** [find_zero] returns the position of the first zero byte, counted from
    [pos], or -1 when there is none. *)
Lemma find_zero_spec (l : bytes) (pos : Z) :
  (Py.find_zero l pos = -1 /\ forall k : nat, l !! k <> Some x00) \/
  (exists k : nat,
      Py.find_zero l pos = pos + Z.of_nat k /\ l !! k = Some x00 /\
      forall j : nat, (j < k)%nat -> l !! j <> Some x00).
Proof.
  revert pos. induction l as [|b l IH]; intros pos; simpl.
  - left. split; [done|]. intros k. by rewrite lookup_nil.
  - destruct (Byte.eqb b x00) eqn:Hb.
    + right. exists O. apply is_zero_true in Hb as ->.
      split; [lia|]. split; [done|]. intros j Hj. lia.
    + assert (b <> x00) as Hne by (by apply eqb_false).
      destruct (IH (pos + 1)) as [[Hf Hnone]|(k & Hf & Hk & Hmin)].
      * left. split; [done|]. intros [|k]; simpl; [congruence | apply Hnone].
      * right. exists (S k). split; [lia|]. split; [done|].
        intros [|j] Hj; simpl; [congruence | apply Hmin; lia].
Qed.

(** [data.find(b'\0', start)] is -1 when no zero byte lies at or after the
    normalised start, and the index of the first such byte otherwise. *)
Lemma find0_spec (data : bytes) (start : Z) :
  let s := Py.clamp (Z.of_nat (length data)) start in
  (Py.find0 data start = -1 /\ forall i, s <= i -> ~ zero_at data i) \/
  (exists i, Py.find0 data start = i /\ first_zero_from data s i).
Proof.
  intros s.
  pose proof (clamp_bounds (Z.of_nat (length data)) start ltac:(lia)) as Hs.
  fold s in Hs. unfold Py.find0. fold s.
  destruct (Z.of_nat (length data)
            <? (if start <? 0 then start + Z.of_nat (length data) else start))
    eqn:Hbeyond.
  - left. split; [done|]. intros i Hi [_ Hz].
    apply lookup_lt_Some in Hz.
    assert (s = Z.of_nat (length data)); [|lia].
    unfold s, Py.clamp. destruct (start <? 0) eqn:?; lia.
  - destruct (find_zero_spec (drop (Z.to_nat s) data) s)
      as [[Hf Hnone]|(k & Hf & Hk & Hmin)].
    + left. split; [done|]. intros i Hi [Hi0 Hz].
      apply (Hnone (Z.to_nat i - Z.to_nat s)%nat).
      rewrite lookup_drop. rewrite <- Hz. f_equal. lia.
    + right. exists (s + Z.of_nat k). split; [done|].
      rewrite lookup_drop in Hk.
      split; [lia|]. split.
      * split; [lia|]. rewrite <- Hk. f_equal. lia.
      * intros j Hj [Hj0 Hz].
        apply (Hmin (Z.to_nat j - Z.to_nat s)%nat); [lia|].
        rewrite lookup_drop. rewrite <- Hz. f_equal. lia.
Qed.

Lemma first_zero_unique (data : bytes) (s i j : Z) :
  first_zero_from data s i -> first_zero_from data s j -> i = j.
Proof.
  intros (Hsi & Hzi & Hmi) (Hsj & Hzj & Hmj).
  destruct (Z.lt_trichotomy i j) as [Hlt|[->|Hgt]]; [|done|].
  - exfalso. apply (Hmj i); [lia | done].
  - exfalso. apply (Hmi j); [lia | done].
Qed.

Lemma index_inside (data : bytes) (i : Z) (x : byte) :
  0 <= i -> data !! Z.to_nat i = Some x -> Py.index data i = Ok x.
Proof.
  intros Hi Hx. pose proof (lookup_lt_Some _ _ _ Hx) as Hlt.
  assert ((i <? 0) = false) as Hneg by lia.
  assert ((Z.of_nat (length data) <=? i) = false) as Hle by lia.
  unfold Py.index. cbv zeta. rewrite !Hneg, Hle. cbn [orb]. by rewrite Hx.
Qed.

Lemma index_at_length (data : bytes) :
  Py.index data (Z.of_nat (length data)) = Raise IndexError.
Proof.
  assert ((Z.of_nat (length data) <? 0) = false) as Hneg
    by (apply Z.ltb_ge; lia).
  assert ((Z.of_nat (length data) <=? Z.of_nat (length data)) = true)
    as Hle by (apply Z.leb_le; lia).
  unfold Py.index. cbv zeta. by rewrite !Hneg, Hle.
Qed.

(** The scan passes over every position at which both bytes exist and are
    not both zero. *)
Lemma utf16_scan_skip (data : bytes) (ends rest : list Z) :
  Forall (fun e => 0 <= e /\ e + 1 < Z.of_nat (length data) /\
                   ~ (zero_at data e /\ zero_at data (e + 1))) ends ->
  utf16_scan data (ends ++ rest) = utf16_scan data rest.
Proof.
  induction 1 as [|e ends (He0 & He1 & Hpair) _ IH]; simpl; [done|].
  destruct (lookup_lt_is_Some_2 data (Z.to_nat e)) as [lo Hlo]; [lia|].
  destruct (lookup_lt_is_Some_2 data (Z.to_nat (e + 1))) as [hi Hhi]; [lia|].
  rewrite (index_inside data e lo He0 Hlo).
  assert (0 <= e + 1) as He0' by lia.
  rewrite (index_inside data (e + 1) hi He0' Hhi).
  unfold is_zero.
  destruct (Byte.eqb lo x00) eqn:Hzlo; simpl; [|done].
  destruct (Byte.eqb hi x00) eqn:Hzhi; [|done].
  apply is_zero_true in Hzlo as ->. apply is_zero_true in Hzhi as ->.
  destruct Hpair. split; split; (lia || done).
Qed.

(** Where the scan leaves the buffer: an odd number of bytes from [start]
    on, the last of them zero, and no aligned pair of zero bytes. *)
Lemma utf16_scan_odd_tail (data : bytes) (start : Z) (q : nat) :
  0 <= start ->
  Z.of_nat (length data) = start + 2 * Z.of_nat q + 1 ->
  zero_at data (Z.of_nat (length data) - 1) ->
  (forall e, ~ aligned_zero_pair data start e) ->
  utf16_scan data (Py.range2 start (Z.of_nat (length data)))
    = Raise IndexError.
Proof.
  intros Hstart Hlen [_ Hlast] Hnone. unfold Py.range2.
  replace ((Z.of_nat (length data) - start + 1) / 2) with (Z.of_nat q + 1)
    by (rewrite Hlen;
        replace (start + 2 * Z.of_nat q + 1 - start + 1)
          with ((Z.of_nat q + 1) * 2) by lia;
        by rewrite Z.div_mul).
  replace (Z.to_nat (Z.of_nat q + 1)) with (S q) by lia.
  rewrite seq_S, map_app. simpl map.
  rewrite utf16_scan_skip.
  - simpl. replace (start + 2 * Z.of_nat q) with (Z.of_nat (length data) - 1) by lia.
    assert (0 <= Z.of_nat (length data) - 1) as Hpos by lia.
    rewrite (index_inside data _ x00 Hpos Hlast). simpl.
    replace (Z.of_nat (length data) - 1 + 1) with (Z.of_nat (length data)) by lia.
    by rewrite index_at_length.
  - apply Forall_forall. intros e He.
    apply list_elem_of_In, in_map_iff in He as (k & <- & Hk).
    apply in_seq in Hk. split; [lia|]. split; [lia|].
    intros [Hz1 Hz2]. apply (Hnone (start + 2 * Z.of_nat k)).
    split; [by exists k | done].
Qed.

End MemoryReader.

(** C5: in ASCII mode without a count bound the reader returns
    [data[start:i]] for the index [i] of the first zero byte at or after the
    (normalised) start, and it raises EndOfStringNotFound exactly when no
    zero byte lies there; [b"AB\x00CD"] read at offset 0 gives [b"AB"]. *)
Theorem C5_ascii_reads_up_to_first_zero
    (args : MemoryExtractorUnit.Args) (data : bytes) (start : Z)
    (end_ : option Z)
    (Hascii : MemoryExtractorUnit.ascii args = true)
    (Hcount : MemoryExtractorUnit.count args = 0) :
  let s := Py.clamp (Z.of_nat (length data)) start in
  let read := MemoryExtractorUnit._read_from_memory args data (start, end_) in
  ((exists i, s <= i /\ zero_at data i) ->
     exists i, first_zero_from data s i /\
               read = Ok (Py.slice data start (Some i))) /\
  (read = Raise EndOfStringNotFound <->
     ~ exists i, s <= i /\ zero_at data i) /\
  MemoryExtractorUnit._read_from_memory
    {| MemoryExtractorUnit.count := 0;
       MemoryExtractorUnit.utf16 := false;
       MemoryExtractorUnit.ascii := true |}
    ["A"; "B"; x00; "C"; "D"]%byte (0, end_) = Ok ["A"; "B"]%byte.
Proof.
  intros s read.
  assert (Hread : read =
    if Py.find0 data start <? 0 then Raise EndOfStringNotFound
    else Ok (Py.slice data start (Some (Py.find0 data start)))).
  { unfold read, MemoryExtractorUnit._read_from_memory,
      MemoryExtractorUnit.terminator, MemoryExtractorUnit.bound.
    rewrite Hascii, Hcount. simpl.
    by destruct (Py.find0 data start <? 0). }
  destruct (find0_spec data start) as [[Hf Hnone]|(i & Hf & Hfirst)];
    fold s in Hnone || fold s in Hfirst.
  - rewrite Hf in Hread. simpl in Hread. split; [|split; [|reflexivity]].
    + intros (i & Hi & Hz). by destruct (Hnone i Hi).
    + split; [|done]. intros _ (i & Hi & Hz). by destruct (Hnone i Hi).
  - pose proof Hfirst as (Hsi & Hzi & _).
    pose proof (clamp_bounds (Z.of_nat (length data)) start ltac:(lia)) as Hs.
    fold s in Hs.
    assert ((Py.find0 data start <? 0) = false) as Hnn by lia.
    rewrite Hnn, Hf in Hread. split; [|split; [|reflexivity]].
    + intros _. by exists i.
    + rewrite Hread. split; [done|]. intros Hno. destruct Hno. by exists i.
Qed.

Lemma C5_ascii_reads_up_to_first_zero_witness :
  MemoryExtractorUnit._read_from_memory
    {| MemoryExtractorUnit.count := 0;
       MemoryExtractorUnit.utf16 := false;
       MemoryExtractorUnit.ascii := true |}
    ["x"; "y"]%byte (0, None) = Raise EndOfStringNotFound.
Proof.
  apply (C5_ascii_reads_up_to_first_zero
           {| MemoryExtractorUnit.count := 0;
              MemoryExtractorUnit.utf16 := false;
              MemoryExtractorUnit.ascii := true |}
           ["x"; "y"]%byte 0 None eq_refl eq_refl).
  intros (i & Hi & Hi0 & Hz).
  destruct (Z.to_nat i) as [|[|[|n]]]; discriminate.
Defined.

(** C6: with a positive count the end offset is the smaller of the end the
    terminator search left (if any) and [start + count]; with no terminator
    flag and no end from the offset oracle, [start + count] alone bounds the
    read, so [b"ABCDEF"] read at offset 1 with count 2 gives [b"BC"]. *)
Theorem C6_count_bounds_the_end
    (args : MemoryExtractorUnit.Args) (data : bytes) (start : Z)
    (end_ : option Z)
    (Hcount : 0 < MemoryExtractorUnit.count args) :
  let lbound := start + MemoryExtractorUnit.count args in
  let read := MemoryExtractorUnit._read_from_memory args data (start, end_) in
  (forall e, MemoryExtractorUnit.terminator args data start end_ = Ok (Some e) ->
     read = Ok (Py.slice data start (Some (Z.min e lbound)))) /\
  (MemoryExtractorUnit.ascii args = true ->
   forall i,
     first_zero_from data (Py.clamp (Z.of_nat (length data)) start) i ->
     read = Ok (Py.slice data start (Some (Z.min i lbound)))) /\
  (MemoryExtractorUnit.ascii args = false ->
   MemoryExtractorUnit.utf16 args = false ->
   end_ = None ->
   read = Ok (Py.slice data start (Some lbound))) /\
  MemoryExtractorUnit._read_from_memory
    {| MemoryExtractorUnit.count := 2;
       MemoryExtractorUnit.utf16 := false;
       MemoryExtractorUnit.ascii := false |}
    ["A"; "B"; "C"; "D"; "E"; "F"]%byte (1, None) = Ok ["B"; "C"]%byte.
Proof.
  intros lbound read.
  assert (Hnz : (MemoryExtractorUnit.count args =? 0) = false) by lia.
  assert (Hmin : forall e,
    MemoryExtractorUnit.terminator args data start end_ = Ok (Some e) ->
    read = Ok (Py.slice data start (Some (Z.min e lbound)))).
  { intros e He. unfold read, MemoryExtractorUnit._read_from_memory.
    rewrite He. unfold MemoryExtractorUnit.bound. by rewrite Hnz. }
  split; [exact Hmin|]. split; [|split; [|reflexivity]].
  - intros Hascii i Hfirst. apply Hmin.
    unfold MemoryExtractorUnit.terminator. rewrite Hascii.
    destruct (find0_spec data start) as [[Hf Hnone]|(i' & Hf & Hfirst')].
    + destruct Hfirst as (Hsi & Hzi & _). by destruct (Hnone i Hsi).
    + rewrite (first_zero_unique _ _ _ _ Hfirst Hfirst').
      destruct Hfirst' as (_ & [Hi0 _] & _).
      rewrite Hf. by assert ((i' <? 0) = false) as -> by lia.
  - intros Hascii Hutf16 ->.
    unfold read, MemoryExtractorUnit._read_from_memory,
      MemoryExtractorUnit.terminator, MemoryExtractorUnit.bound.
    by rewrite Hascii, Hutf16, Hnz.
Qed.

Lemma C6_count_bounds_the_end_witness :
  MemoryExtractorUnit._read_from_memory
    {| MemoryExtractorUnit.count := 3;
       MemoryExtractorUnit.utf16 := false;
       MemoryExtractorUnit.ascii := true |}
    ["A"; "B"; "C"; "D"; x00; "F"]%byte (1, None) = Ok ["B"; "C"; "D"]%byte.
Proof.
  pose proof (C6_count_bounds_the_end
    {| MemoryExtractorUnit.count := 3;
       MemoryExtractorUnit.utf16 := false;
       MemoryExtractorUnit.ascii := true |}
    ["A"; "B"; "C"; "D"; x00; "F"]%byte 1 None eq_refl) as [H _].
  exact (H 4 eq_refl).
Defined.

(** C4, at the input where the code departs from it: the one-byte buffer
    [b"\x00"] read at offset 0 in UTF-16 mode holds no aligned pair of zero
    bytes, and the reader raises IndexError instead of
    EndOfStringNotFound. *)
Theorem C4_utf16_lone_zero_raises_index_error :
  (forall e, ~ aligned_zero_pair [x00] 0 e) /\
  MemoryExtractorUnit._read_from_memory
    {| MemoryExtractorUnit.count := 0;
       MemoryExtractorUnit.utf16 := true;
       MemoryExtractorUnit.ascii := false |}
    [x00] (0, None) = Raise IndexError.
Proof.
  split; [|reflexivity].
  intros e (_ & [He0 Hz] & [_ Hz1]).
  apply lookup_lt_Some in Hz, Hz1. simpl in Hz, Hz1. lia.
Qed.

(** ** [UnpackResult.get_data] *)

Section GetData.

Lemma get_data_cached (self : UnpackResult) (clock : nat) :
  let '(b, self', clock') := UnpackResult.get_data self clock in
  UnpackResult.get_data self' clock' = (b, self', clock').
Proof.
  unfold UnpackResult.get_data.
  destruct (data self) as [b0|f] eqn:Hdata; simpl; [by rewrite Hdata | done].
Qed.

Lemma get_data_times_cached (n : nat) (self : UnpackResult) (clock : nat)
    (b : bytes) :
  data self = Concrete b ->
  UnpackResult.get_data_times n self clock = (replicate n b, self, clock).
Proof.
  intros Hdata. induction n as [|n IH]; simpl; [done|].
  unfold UnpackResult.get_data at 1. by rewrite Hdata, IH.
Qed.

End GetData.

(** C7: a second [get_data()] returns the bytes of the first and changes
    nothing; over any number of calls the producer runs at most once, namely
    in the first call when [data] is a callable, which then stores the bytes
    it produced. *)
Theorem C7_get_data_materialises_once
    (self : UnpackResult) (clock : nat) (n : nat) :
  let '(b, self', clock') := UnpackResult.get_data self clock in
  UnpackResult.get_data self' clock' = (b, self', clock') /\
  UnpackResult.get_data_times (S n) self clock
    = (replicate (S n) b, self', clock') /\
  (clock' - clock <= 1)%nat /\
  path self' = path self /\
  data self' = Concrete b /\
  match data self with
  | Callable f => b = f clock /\ clock' = S clock
  | Concrete b0 => b = b0 /\ self' = self /\ clock' = clock
  end.
Proof.
  pose proof (get_data_cached self clock) as Hcached.
  simpl UnpackResult.get_data_times.
  destruct (UnpackResult.get_data self clock) as [[b self'] clock'] eqn:Hget.
  unfold UnpackResult.get_data in Hget.
  destruct (data self) as [b0|f] eqn:Hdata; injection Hget as <- <- <-.
  - split; [done|]. rewrite (get_data_times_cached n self clock b0 Hdata).
    repeat split; try done. lia.
  - split; [done|].
    rewrite (get_data_times_cached n
               {| path := path self; data := Concrete (f clock) |}
               (S clock) (f clock) eq_refl).
    repeat split; try done. lia.
Qed.

(** ** The store: what [get_data] and the other primitives do to it *)

Section Store.

Lemma state_eta (st : state) :
  {| heap := heap st; clock := clock st; trace := trace st |} = st.
Proof. by destruct st. Qed.

(** On bytes already there, [get_data] returns them and changes nothing. *)
Lemma get_data_hit (st : state) (a : addr) (s : string) (b : bytes) :
  materialised st a s b -> get_data a st = (b, st).
Proof.
  unfold materialised, get_data. intros Hm. rewrite Hm. simpl.
  rewrite Nat.sub_diag. simpl. rewrite app_nil_r.
  rewrite (list_insert_id _ _ _ Hm). by rewrite state_eta.
Qed.

(** In general [get_data] leaves the bytes it returns in the object, keeps
    every path and every other object, and records the producer call. *)
Lemma get_data_effect (st : state) (a : addr) (r : UnpackResult) :
  heap st !! a = Some r ->
  exists b n,
    get_data a st =
      (b, {| heap := <[a := {| path := path r; data := Concrete b |}]> (heap st);
             clock := (clock st + n)%nat;
             trace := trace st ++ repeat (Invoke a) n |}) /\
    match data r with
    | Concrete b0 => b = b0 /\ n = O
    | Callable f => b = f (clock st) /\ n = 1%nat
    end.
Proof.
  intros Hr. unfold get_data. rewrite Hr. unfold UnpackResult.get_data.
  destruct r as [s [b0|f]]; simpl.
  - exists b0, O. rewrite Nat.sub_diag, Nat.add_0_r. done.
  - exists (f (clock st)), 1%nat.
    replace (S (clock st) - clock st)%nat with 1%nat by lia.
    replace (clock st + 1)%nat with (S (clock st)) by lia. done.
Qed.

Lemma get_data_dangling (st : state) (a : addr) :
  heap st !! a = None -> get_data a st = ([], st).
Proof. unfold get_data. by intros ->. Qed.

Lemma path_at_insert (h : list UnpackResult) (a a' : addr)
    (r : UnpackResult) (b : bytes) :
  h !! a = Some r ->
  path_at (<[a := {| path := path r; data := Concrete b |}]> h) a' = path_at h a'.
Proof.
  intros Hr. unfold path_at.
  destruct (decide (a = a')) as [<-|Hne].
  - rewrite list_lookup_insert_eq by (by eapply lookup_lt_Some). by rewrite Hr.
  - by rewrite list_lookup_insert_ne.
Qed.

Lemma materialised_insert (h : list UnpackResult) (a a' : addr)
    (r : UnpackResult) (b b' : bytes) (s' : string) (c : nat) (tr : list event) :
  h !! a = Some r ->
  (data r = Concrete b \/ a <> a') ->
  h !! a' = Some {| path := s'; data := Concrete b' |} ->
  materialised
    {| heap := <[a := {| path := path r; data := Concrete b |}]> h;
       clock := c; trace := tr |} a' s' b'.
Proof.
  intros Hr Hcase Ha'. unfold materialised. simpl.
  destruct (decide (a = a')) as [<-|Hne].
  - destruct Hcase as [Hb|Hne]; [|done].
    rewrite list_lookup_insert_eq by (by eapply lookup_lt_Some).
    rewrite Hr in Ha'. injection Ha' as ->. simpl in Hb. by injection Hb as ->.
  - by rewrite list_lookup_insert_ne.
Qed.

Lemma omap_repeat_none {A B} (f : A -> option B) (x : A) (n : nat) :
  f x = None -> omap f (repeat x n) = [].
Proof. intros Hx. induction n as [|n IH]; simpl; [done|]. by rewrite Hx. Qed.

Lemma omap_none {A B} (f : A -> option B) (l : list A) :
  Forall (fun x => f x = None) l -> omap f l = [].
Proof. induction 1 as [|x l Hx _ IH]; simpl; [done|]. by rewrite Hx. Qed.

End Store.

(** ** An invariant of every run of [process]

    Fix what a run may do: a predicate [R] on the events it may emit and a
    predicate [Q] on the objects it may change.  If [R] allows the log
    lines, the chunks and paths of wanted objects, and the producer calls of
    wanted objects outside list mode, and [Q] allows those objects, then
    every run keeps within [R] and [Q], and never changes a path. *)

Section RunInvariant.

Variables (args : PathExtractorArgs) (root : string).
Variables (h0 : list UnpackResult) (unpacked : list addr).
Variables (R : event -> Prop) (Q : addr -> Prop).

Hypothesis R_debug : R LogDebug.
Hypothesis R_warn : forall s, R (LogWarn s).
Hypothesis R_info : forall s, R (LogInfo s).
Hypothesis R_chunk :
  forall a d, wanted args h0 unpacked a ->
              R (YieldChunk d (label args root h0 a)).
Hypothesis R_path :
  forall a, wanted args h0 unpacked a ->
            R (YieldPath (Py.encode (label args root h0 a))).
Hypothesis R_invoke :
  forall a, list_ args = false -> wanted args h0 unpacked a -> R (Invoke a) /\ Q a.

Lemma follows_refl (st : state) : stable h0 st -> follows h0 R Q st st.
Proof.
  intros Hst. split; [done|]. split; [|done].
  exists []. by rewrite app_nil_r.
Qed.

Lemma follows_trans (st1 st2 st3 : state) :
  follows h0 R Q st1 st2 -> follows h0 R Q st2 st3 -> follows h0 R Q st1 st3.
Proof.
  intros (_ & (e1 & Ht1 & HR1) & Hh1) (Hst & (e2 & Ht2 & HR2) & Hh2).
  split; [done|]. split.
  - exists (e1 ++ e2). rewrite Ht2, Ht1, app_assoc. split; [done|].
    by apply Forall_app.
  - intros a Ha. by rewrite Hh2, Hh1.
Qed.

Lemma sound_ret {A} (x : A) (post : A -> Prop) :
  post x -> sound h0 R Q (ret x) post.
Proof. intros Hx st Hst. split; [done | by apply follows_refl]. Qed.

Lemma sound_bind {A B} (m : M A) (k : A -> M B)
    (mid : A -> Prop) (post : B -> Prop) :
  sound h0 R Q m mid ->
  (forall x, mid x -> sound h0 R Q (k x) post) ->
  sound h0 R Q (bind m k) post.
Proof.
  intros Hm Hk st Hst. unfold bind.
  destruct (Hm st Hst) as [Hmid Hf]. destruct (m st) as [x st1]. simpl in *.
  destruct (Hk x Hmid st1 (proj1 Hf)) as [Hpost Hf'].
  split; [done | by eapply follows_trans].
Qed.

Lemma sound_emit (e : event) : R e -> sound h0 R Q (emit e) (fun _ => True).
Proof.
  intros He st Hst. split; [done|]. split; [done|]. split; [|done].
  exists [e]. split; [done | by constructor].
Qed.

Lemma sound_attr_path (a : addr) :
  sound h0 R Q (attr_path a) (fun s => s = path_at h0 a).
Proof. intros st Hst. split; [apply Hst | by apply follows_refl]. Qed.

Lemma sound_get_data (a : addr) :
  R (Invoke a) -> Q a -> sound h0 R Q (get_data a) (fun _ => True).
Proof.
  intros HR HQ st Hst. split; [done|].
  destruct (heap st !! a) as [r|] eqn:Hr.
  - destruct (get_data_effect st a r Hr) as (b & n & -> & _). simpl.
    split; [|split].
    + intros a'. simpl. rewrite (path_at_insert _ _ _ _ _ Hr). apply Hst.
    + exists (repeat (Invoke a) n). split; [done|].
      clear -HR. induction n as [|n IH]; simpl; by constructor.
    + intros a' Ha'. simpl. apply list_lookup_insert_ne. by intros ->.
  - rewrite (get_data_dangling st a Hr). by apply follows_refl.
Qed.

Lemma wanted_check (a : addr) (p : PathPattern) :
  a ∈ unpacked -> p ∈ patterns args ->
  PathPattern.check p (path_at h0 a) = true -> wanted args h0 unpacked a.
Proof.
  intros Ha Hp Hcheck. split; [done|].
  unfold PathExtractorUnit._check_path. apply existsb_true. by exists p.
Qed.

Lemma sound_collect (todo results : list addr) :
  todo ⊆ unpacked -> Forall (wanted args h0 unpacked) results ->
  sound h0 R Q (PathExtractorUnit.collect args todo results)
        (Forall (wanted args h0 unpacked)).
Proof.
  revert results. induction todo as [|a todo IH]; intros results Hsub Hres; simpl.
  - by apply sound_ret.
  - assert (a ∈ unpacked) as Ha by (apply Hsub; left).
    assert (todo ⊆ unpacked) as Hsub' by (intros x Hx; apply Hsub; by right).
    eapply sound_bind; [apply sound_attr_path|]. intros s ->.
    destruct (PathExtractorUnit._check_path args (path_at h0 a)) eqn:Hwant;
      [|by apply IH].
    assert (wanted args h0 unpacked a) as Hw by done.
    eapply sound_bind with (mid := fun _ => True).
    + destruct (list_ args) eqn:Hlist; simpl; [by apply sound_ret|].
      destruct (R_invoke a eq_refl Hw) as [HR HQ].
      eapply sound_bind; [by apply sound_get_data|].
      intros _ _. by apply sound_ret.
    + intros _ _. apply IH; [done|]. apply Forall_app. split; [done|].
      by constructor.
Qed.

Lemma sound_deliver (a : addr) :
  wanted args h0 unpacked a ->
  sound h0 R Q (PathExtractorUnit.deliver args root a (path_at h0 a)) (fun _ => True).
Proof.
  intros Hw. unfold PathExtractorUnit.deliver. fold (label args root h0 a).
  destruct (list_ args) eqn:Hlist.
  - apply sound_emit. by apply R_path.
  - destruct (R_invoke a eq_refl Hw) as [HR HQ].
    eapply sound_bind; [by apply sound_emit|]. intros _ _.
    eapply sound_bind; [by apply sound_get_data|]. intros d _.
    apply sound_emit. by apply R_chunk.
Qed.

Lemma sound_visit (p : PathPattern) (paths : gmap string (gset Z)) (a : addr) :
  wanted args h0 unpacked a ->
  sound h0 R Q (PathExtractorUnit.visit args root p paths a) (fun _ => True).
Proof.
  intros Hw. unfold PathExtractorUnit.visit.
  eapply sound_bind; [apply sound_attr_path|]. intros s ->.
  destruct (negb (PathPattern.check p (path_at h0 a))); [by apply sound_ret|].
  assert (Hdone : forall paths' : gmap string (gset Z),
    sound h0 R Q (PathExtractorUnit.deliver args root a (path_at h0 a) ;;; ret paths')
          (fun _ => True)).
  { intros paths'. eapply sound_bind; [by apply sound_deliver|].
    intros _ _. by apply sound_ret. }
  destruct (list_ args) eqn:Hlist; simpl; [apply Hdone|].
  destruct (R_invoke a eq_refl Hw) as [HR HQ].
  eapply sound_bind; [by apply sound_get_data|]. intros d _.
  destruct (paths !! path_at h0 a) as [seen|]; [|apply Hdone].
  destruct (bool_decide _); [by apply sound_ret|].
  eapply sound_bind; [by apply sound_emit|]. intros _ _. apply Hdone.
Qed.

Lemma sound_for_results (p : PathPattern) (results : list addr)
    (paths : gmap string (gset Z)) :
  Forall (wanted args h0 unpacked) results ->
  sound h0 R Q (PathExtractorUnit.for_results args root p results paths)
        (fun _ => True).
Proof.
  revert paths. induction results as [|a results IH]; intros paths Hres; simpl.
  - by apply sound_ret.
  - apply Forall_cons in Hres as [Ha Hres].
    eapply sound_bind; [by apply sound_visit|]. intros paths' _. by apply IH.
Qed.

Lemma sound_for_patterns (ps : list PathPattern) (results : list addr)
    (paths : gmap string (gset Z)) :
  Forall (wanted args h0 unpacked) results ->
  sound h0 R Q (PathExtractorUnit.for_patterns args root ps results paths)
        (fun _ => True).
Proof.
  intros Hres. revert paths. induction ps as [|p ps IH]; intros paths; simpl.
  - by apply sound_ret.
  - eapply sound_bind; [by apply sound_emit|]. intros _ _.
    eapply sound_bind; [by apply sound_for_results|]. intros paths' _.
    apply IH.
Qed.

Lemma sound_process (meta_path : option string) :
  root = (if join args then default "" meta_path else "") ->
  sound h0 R Q (PathExtractorUnit.process args meta_path unpacked) (fun _ => True).
Proof.
  intros Hroot. unfold PathExtractorUnit.process. rewrite <- Hroot.
  eapply sound_bind; [by apply sound_collect|]. intros results Hres.
  eapply sound_bind; [by apply sound_for_patterns|]. intros _ _.
  by apply sound_ret.
Qed.

End RunInvariant.

Section RunFacts.

Lemma invocations_none (a : addr) (evs : list event) :
  Forall (fun e => match e with Invoke a' => a' <> a | _ => True end) evs ->
  invocations a evs = O.
Proof.
  intros Hevs. unfold invocations. rewrite omap_none; [done|].
  eapply Forall_impl; [exact Hevs|]. intros [a'| | | | |] He; try done.
  simpl in *. by apply Nat.eqb_neq in He as ->.
Qed.

Lemma path_join_absolute (root s : string) :
  Py.startswith_sep s = true -> Py.path_join root s = s.
Proof. unfold Py.path_join. by intros ->. Qed.

Lemma path_join_empty_root (s : string) : Py.path_join "" s = s.
Proof. unfold Py.path_join. by destruct (Py.startswith_sep s). Qed.

Lemma joined_label_join (root s : string) :
  joined_label root s (Py.path_join root s).
Proof.
  split; [done|]. split.
  - apply path_join_absolute.
  - intros ->. apply path_join_empty_root.
Qed.

Lemma initial_stable (objects : list UnpackResult) :
  stable objects {| heap := objects; clock := O; trace := [] |}.
Proof. by intros a. Qed.

End RunFacts.

(** C8: over a whole run, an object whose path passes no pattern is left as
    it was and its producer is never called; in list mode no object is
    changed and no producer is called at all. *)
Theorem C8_unwanted_objects_stay_deferred
    (args : PathExtractorArgs) (meta_path : option string)
    (objects : list UnpackResult) (unpacked : list addr) :
  let st := PathExtractorUnit.run args meta_path objects unpacked in
  (forall a r,
     objects !! a = Some r ->
     PathExtractorUnit._check_path args (path r) = false ->
     heap st !! a = Some r /\ invocations a (trace st) = O) /\
  (list_ args = true ->
     heap st = objects /\ forall a, invocations a (trace st) = O).
Proof.
  intros st. unfold PathExtractorUnit.run in st.
  set (st0 := {| heap := objects; clock := O; trace := [] |}) in st.
  set (root := if join args then default "" meta_path else "").
  split.
  - intros a r Hr Hcheck.
    set (R := fun e => match e with Invoke a' => a' <> a | _ => True end).
    assert (Hinvoke : forall a', list_ args = false ->
              wanted args objects unpacked a' -> R (Invoke a') /\ a' <> a).
    { intros a' _ [_ Hw]. assert (a' <> a); [|done]. intros ->.
      unfold path_at in Hw. rewrite Hr in Hw. congruence. }
    destruct (sound_process args root objects unpacked R (fun a' => a' <> a)
                I (fun _ => I) (fun _ => I) (fun _ _ _ => I) (fun _ _ => I)
                Hinvoke meta_path eq_refl st0 (initial_stable objects))
      as [_ (_ & (evs & Htr & Hevs) & Hheap)].
    fold st in Htr, Hheap. split.
    + rewrite Hheap; [done|]. by intros Hne.
    + rewrite Htr. simpl. by apply invocations_none.
  - intros Hlist.
    set (R := fun e => match e with Invoke _ => False | _ => True end).
    assert (Hinvoke : forall a', list_ args = false ->
              wanted args objects unpacked a' -> R (Invoke a') /\ False)
      by congruence.
    destruct (sound_process args root objects unpacked R (fun _ => False)
                I (fun _ => I) (fun _ => I) (fun _ _ _ => I) (fun _ _ => I)
                Hinvoke meta_path eq_refl st0 (initial_stable objects))
      as [_ (_ & (evs & Htr & Hevs) & Hheap)].
    fold st in Htr, Hheap. split.
    + apply list_eq. intros a. rewrite Hheap; [done | tauto].
    + intros a. rewrite Htr. simpl. apply invocations_none.
      eapply Forall_impl; [exact Hevs|]. intros e He. by destruct e.
Qed.

Lemma C8_unwanted_objects_stay_deferred_witness :
  let objects := [ {| path := "a.bin"; data := Callable (fun _ => []) |} ] in
  let st := PathExtractorUnit.run
              (PathExtractorUnit.init ["*.txt"] false false false) None
              objects [O] in
  heap st !! O = Some {| path := "a.bin"; data := Callable (fun _ => []) |} /\
  invocations O (trace st) = O.
Proof.
  exact (proj1 (C8_unwanted_objects_stay_deferred
                  (PathExtractorUnit.init ["*.txt"] false false false) None
                  [ {| path := "a.bin"; data := Callable (fun _ => []) |} ] [O])
               O _ eq_refl eq_refl).
Defined.

(** ** Runs over objects that already hold their bytes *)

Section Replay.

Lemma log_log (st : state) (e1 e2 : list event) :
  log (log st e1) e2 = log st (e1 ++ e2).
Proof. unfold log. simpl. by rewrite app_assoc. Qed.

Lemma log_nil (st : state) : log st [] = st.
Proof. unfold log. rewrite app_nil_r. apply state_eta. Qed.

Lemma materialised_log (st : state) (evs : list event)
    (a : addr) (s : string) (b : bytes) :
  materialised st a s b -> materialised (log st evs) a s b.
Proof. done. Qed.

Lemma path_at_materialised (st : state) (a : addr) (s : string) (b : bytes) :
  materialised st a s b -> path_at (heap st) a = s.
Proof. unfold materialised, path_at. by intros ->. Qed.

Lemma deliver_hit (args : PathExtractorArgs) (root : string) (st : state)
    (a : addr) (s : string) (b : bytes) :
  list_ args = false -> materialised st a s b ->
  let l := if join args then Py.path_join root s else s in
  PathExtractorUnit.deliver args root a s st
    = (tt, log st [LogInfo l; YieldChunk b l]).
Proof.
  intros Hlist Hm l. unfold PathExtractorUnit.deliver. fold l.
  rewrite Hlist. unfold bind, emit. fold (log st [LogInfo l]).
  rewrite (get_data_hit (log st [LogInfo l]) a s b Hm).
  fold (log (log st [LogInfo l]) [YieldChunk b l]). by rewrite log_log.
Qed.

(** One turn of the inner loop on an object that holds its bytes: a checksum
    already in the ledger ends the turn, a new one under a known path is
    reported and emitted, a new path is emitted. *)
Lemma visit_hit (args : PathExtractorArgs) (root : string) (p : PathPattern)
    (paths : gmap string (gset Z)) (st : state)
    (a : addr) (s : string) (b : bytes) :
  list_ args = false -> materialised st a s b ->
  PathPattern.check p s = true ->
  let l := if join args then Py.path_join root s else s in
  let csum := Py.adler32 b in
  PathExtractorUnit.visit args root p paths a st =
    match paths !! s with
    | Some seen =>
        if bool_decide (csum ∈ seen) then (paths, st)
        else (PathExtractorUnit.ledger_add paths s csum,
              log st [LogWarn s; LogInfo l; YieldChunk b l])
    | None =>
        (PathExtractorUnit.ledger_add paths s csum,
         log st [LogInfo l; YieldChunk b l])
    end.
Proof.
  intros Hlist Hm Hcheck l csum. unfold PathExtractorUnit.visit.
  unfold bind at 1. unfold attr_path.
  rewrite (path_at_materialised st a s b Hm), Hcheck, Hlist. simpl.
  unfold bind at 1. rewrite (get_data_hit st a s b Hm). fold csum.
  destruct (paths !! s) as [seen|].
  - destruct (bool_decide (csum ∈ seen)); [done|].
    unfold bind, emit. fold (log st [LogWarn s]).
    rewrite (deliver_hit args root (log st [LogWarn s]) a s b Hlist Hm).
    by rewrite log_log.
  - unfold bind. by rewrite (deliver_hit args root st a s b Hlist Hm).
Qed.

(** In list mode a turn emits the path of every matching object. *)
Lemma visit_list (args : PathExtractorArgs) (root : string) (p : PathPattern)
    (paths : gmap string (gset Z)) (st : state) (a : addr) :
  list_ args = true ->
  PathPattern.check p (path_at (heap st) a) = true ->
  let s := path_at (heap st) a in
  let l := if join args then Py.path_join root s else s in
  PathExtractorUnit.visit args root p paths a st
    = (paths, log st [YieldPath (Py.encode l)]).
Proof.
  intros Hlist Hcheck s l. unfold PathExtractorUnit.visit.
  unfold bind at 1. unfold attr_path. rewrite Hcheck, Hlist. simpl.
  unfold bind, PathExtractorUnit.deliver. fold s l. by rewrite Hlist.
Qed.

(** The first loop over one wanted object outside list mode. *)
Lemma collect_wanted (args : PathExtractorArgs) (a : addr) (rest results : list addr)
    (st : state) :
  list_ args = false ->
  PathExtractorUnit._check_path args (path_at (heap st) a) = true ->
  PathExtractorUnit.collect args (a :: rest) results st
    = PathExtractorUnit.collect args rest (results ++ [a]) (get_data a st).2.
Proof.
  intros Hlist Hwant. simpl. unfold bind at 1. unfold attr_path.
  rewrite Hwant, Hlist. simpl. unfold bind, ret.
  by destruct (get_data a st).
Qed.

(** The loops of [process], one turn at a time. *)
Lemma for_results_cons (args : PathExtractorArgs) (root : string)
    (p : PathPattern) (a : addr) (rest : list addr)
    (paths : gmap string (gset Z)) (st : state) :
  PathExtractorUnit.for_results args root p (a :: rest) paths st
    = PathExtractorUnit.for_results args root p rest
        (PathExtractorUnit.visit args root p paths a st).1
        (PathExtractorUnit.visit args root p paths a st).2.
Proof.
  simpl. unfold bind.
  by destruct (PathExtractorUnit.visit args root p paths a st).
Qed.

Lemma for_patterns_cons (args : PathExtractorArgs) (root : string)
    (p : PathPattern) (ps : list PathPattern) (results : list addr)
    (paths : gmap string (gset Z)) (st : state) :
  PathExtractorUnit.for_patterns args root (p :: ps) results paths st
    = PathExtractorUnit.for_patterns args root ps results
        (PathExtractorUnit.for_results args root p results paths
           (log st [LogDebug])).1
        (PathExtractorUnit.for_results args root p results paths
           (log st [LogDebug])).2.
Proof.
  simpl. unfold bind, emit. fold (log st [LogDebug]).
  by destruct (PathExtractorUnit.for_results args root p results paths _).
Qed.

Lemma process_passes (args : PathExtractorArgs) (meta_path : option string)
    (unpacked : list addr) (st : state) :
  let root := if join args then default "" meta_path else "" in
  let first := PathExtractorUnit.collect args unpacked [] st in
  (PathExtractorUnit.process args meta_path unpacked st).2
    = (PathExtractorUnit.for_patterns args root (patterns args)
         first.1 ∅ first.2).2.
Proof.
  intros root first. unfold PathExtractorUnit.process. fold root.
  unfold bind, ret. fold first. destruct first as [results st1]. simpl.
  by destruct (PathExtractorUnit.for_patterns args root _ results ∅ st1).
Qed.

Lemma lookup_ledger_add (paths : gmap string (gset Z)) (s : string) (c : Z) :
  PathExtractorUnit.ledger_add paths s c !! s
    = Some (default ∅ (paths !! s) ∪ {[c]}).
Proof. unfold PathExtractorUnit.ledger_add. apply lookup_insert_eq. Qed.

Lemma emissions_debug (n : nat) : emissions (repeat LogDebug n) = [].
Proof. by apply omap_repeat_none. Qed.

Lemma warnings_debug (n : nat) : warnings (repeat LogDebug n) = [].
Proof. by apply omap_repeat_none. Qed.

Lemma emissions_app (t1 t2 : list event) :
  emissions (t1 ++ t2) = emissions t1 ++ emissions t2.
Proof. apply omap_app. Qed.

Lemma warnings_app (t1 t2 : list event) :
  warnings (t1 ++ t2) = warnings t1 ++ warnings t2.
Proof. apply omap_app. Qed.

Lemma emissions_invokes (a : addr) (n : nat) : emissions (repeat (Invoke a) n) = [].
Proof. by apply omap_repeat_none. Qed.

Lemma warnings_invokes (a : addr) (n : nat) : warnings (repeat (Invoke a) n) = [].
Proof. by apply omap_repeat_none. Qed.

End Replay.

Section FirstPass.

(** What one [get_data] of the first loop leaves behind. *)
Lemma get_data_step (st : state) (a : addr) (r : UnpackResult) :
  heap st !! a = Some r ->
  exists b n,
    let st' := (get_data a st).2 in
    materialised st' a (path r) b /\
    trace st' = trace st ++ repeat (Invoke a) n /\
    (forall a' s' b', materialised st a' s' b' -> materialised st' a' s' b') /\
    (forall a', a' <> a -> heap st' !! a' = heap st !! a') /\
    (forall c, data r = Concrete c -> b = c).
Proof.
  intros Hr. destruct (get_data_effect st a r Hr) as (b & n & Hget & Hdata).
  exists b, n. rewrite Hget. simpl. split; [|split; [done|split; [|split]]].
  - unfold materialised. simpl.
    apply list_lookup_insert_eq. by eapply lookup_lt_Some.
  - intros a' s' b' Hm. apply materialised_insert; [done| |done].
    destruct (decide (a = a')) as [<-|Hne]; [left|by right].
    unfold materialised in Hm. rewrite Hr in Hm. injection Hm as ->.
    simpl in *. by destruct Hdata as [-> _].
  - intros a' Hne. by apply list_lookup_insert_ne.
  - intros c Hc. rewrite Hc in Hdata. by destruct Hdata.
Qed.

End FirstPass.

Section TwoObjects.

(** The second loop over two objects [a1] and [a2] that hold the bytes [b1]
    and [b2] under one path [s]. *)

Variables (args : PathExtractorArgs) (root : string).
Variables (a1 a2 : addr) (s : string) (b1 b2 : bytes).

Hypothesis Hlist : list_ args = false.

Let l : string := if join args then Py.path_join root s else s.

(** What the first matching pattern emits. *)
Let core : list event :=
  if bool_decide (Py.adler32 b1 = Py.adler32 b2)
  then [LogInfo l; YieldChunk b1 l]
  else [LogInfo l; YieldChunk b1 l; LogWarn s; LogInfo l; YieldChunk b2 l].

Let both (st : state) : Prop :=
  materialised st a1 s b1 /\ materialised st a2 s b2.

Let seen (paths : gmap string (gset Z)) : Prop :=
  exists cs, paths !! s = Some cs /\ Py.adler32 b1 ∈ cs /\ Py.adler32 b2 ∈ cs.

Lemma visit_miss (p : PathPattern) (paths : gmap string (gset Z))
    (st : state) (a : addr) :
  PathPattern.check p (path_at (heap st) a) = false ->
  PathExtractorUnit.visit args root p paths a st = (paths, st).
Proof.
  intros Hmiss. unfold PathExtractorUnit.visit, bind at 1. unfold attr_path.
  by rewrite Hmiss.
Qed.

Lemma visit_seen (p : PathPattern) (paths : gmap string (gset Z))
    (st : state) (a : addr) (b : bytes) (cs : gset Z) :
  materialised st a s b -> paths !! s = Some cs -> Py.adler32 b ∈ cs ->
  PathExtractorUnit.visit args root p paths a st = (paths, st).
Proof.
  intros Hm Hcs Hin.
  destruct (PathPattern.check p s) eqn:Hcheck.
  - rewrite (visit_hit args root p paths st a s b Hlist Hm Hcheck), Hcs.
    by rewrite bool_decide_eq_true_2.
  - apply visit_miss. by rewrite (path_at_materialised st a s b Hm).
Qed.

(** Once both checksums are in the ledger a pattern emits nothing. *)
Lemma for_results_seen (p : PathPattern) (paths : gmap string (gset Z))
    (st : state) :
  both st -> seen paths ->
  PathExtractorUnit.for_results args root p [a1; a2] paths st = (paths, st).
Proof.
  intros [Hm1 Hm2] (cs & Hcs & Hin1 & Hin2).
  rewrite for_results_cons, (visit_seen p paths st a1 b1 cs Hm1 Hcs Hin1).
  rewrite for_results_cons. cbn [fst snd].
  by rewrite (visit_seen p paths st a2 b2 cs Hm2 Hcs Hin2).
Qed.

Lemma for_patterns_seen (ps : list PathPattern)
    (paths : gmap string (gset Z)) (st : state) :
  both st -> seen paths ->
  PathExtractorUnit.for_patterns args root ps [a1; a2] paths st
    = (paths, log st (repeat LogDebug (length ps))).
Proof.
  intros Hboth Hseen. revert st Hboth.
  induction ps as [|p ps IH]; intros st Hboth.
  - simpl. unfold ret. by rewrite log_nil.
  - rewrite for_patterns_cons.
    rewrite (for_results_seen p paths (log st [LogDebug])) by done.
    cbn [fst snd]. rewrite IH by done. by rewrite log_log.
Qed.

(** The first matching pattern emits the first object, and the second one
    unless its checksum is that of the first. *)
Lemma for_results_first (p : PathPattern) (paths : gmap string (gset Z))
    (st : state) :
  both st -> paths !! s = None -> PathPattern.check p s = true ->
  exists paths',
    PathExtractorUnit.for_results args root p [a1; a2] paths st
      = (paths', log st core) /\ seen paths'.
Proof.
  intros [Hm1 Hm2] Hnone Hcheck.
  rewrite for_results_cons.
  rewrite (visit_hit args root p paths st a1 s b1 Hlist Hm1 Hcheck), Hnone.
  cbn [fst snd]. rewrite for_results_cons.
  rewrite (visit_hit args root p _ _ a2 s b2 Hlist
             (materialised_log st _ _ _ _ Hm2) Hcheck).
  rewrite lookup_ledger_add, Hnone. simpl default. cbn [fst snd].
  destruct (decide (Py.adler32 b1 = Py.adler32 b2)) as [Heq|Hne].
  - exists (PathExtractorUnit.ledger_add paths s (Py.adler32 b1)).
    rewrite bool_decide_eq_true_2
      by (apply elem_of_union_r, elem_of_singleton; congruence).
    unfold core. rewrite bool_decide_eq_true_2 by done. split; [done|].
    unfold seen. eexists. rewrite lookup_ledger_add. split; [done|].
    rewrite <- Heq. split; apply elem_of_union_r; by apply elem_of_singleton.
  - exists (PathExtractorUnit.ledger_add
              (PathExtractorUnit.ledger_add paths s (Py.adler32 b1))
              s (Py.adler32 b2)).
    rewrite bool_decide_eq_false_2
      by (rewrite elem_of_union, elem_of_singleton, elem_of_empty; intuition).
    unfold core. rewrite bool_decide_eq_false_2 by done.
    rewrite log_log. split; [done|].
    unfold seen. eexists. rewrite lookup_ledger_add. split; [done|].
    rewrite lookup_ledger_add, Hnone. simpl default. split.
    + apply elem_of_union_l, elem_of_union_r. by apply elem_of_singleton.
    + apply elem_of_union_r. by apply elem_of_singleton.
Qed.

Lemma for_results_miss (p : PathPattern) (paths : gmap string (gset Z))
    (st : state) :
  both st -> PathPattern.check p s = false ->
  PathExtractorUnit.for_results args root p [a1; a2] paths st = (paths, st).
Proof.
  intros [Hm1 Hm2] Hmiss.
  rewrite for_results_cons, visit_miss
    by (by rewrite (path_at_materialised st a1 s b1 Hm1)).
  rewrite for_results_cons. cbn [fst snd].
  by rewrite visit_miss by (by rewrite (path_at_materialised st a2 s b2 Hm2)).
Qed.

(** Over all patterns: nothing but log lines before the first pattern that
    matches [s], then what that pattern emits, then nothing but log lines. *)
Lemma for_patterns_first (ps : list PathPattern)
    (paths : gmap string (gset Z)) (st : state) :
  both st -> paths !! s = None ->
  existsb (fun p => PathPattern.check p s) ps = true ->
  exists n m,
    (PathExtractorUnit.for_patterns args root ps [a1; a2] paths st).2
      = log st (repeat LogDebug n ++ core ++ repeat LogDebug m).
Proof.
  intros Hboth Hnone. revert st Hboth.
  induction ps as [|p ps IH]; intros st Hboth Hsome; [done|].
  simpl in Hsome. rewrite for_patterns_cons.
  destruct (PathPattern.check p s) eqn:Hcheck.
  - destruct (for_results_first p paths (log st [LogDebug]) Hboth Hnone Hcheck)
      as (paths' & -> & Hseen).
    cbn [fst snd]. rewrite for_patterns_seen by done.
    exists 1%nat, (length ps). cbn [snd]. by rewrite !log_log.
  - rewrite for_results_miss by done. cbn [fst snd].
    destruct (IH (log st [LogDebug]) Hboth Hsome) as (n & m & ->).
    exists (S n), m. by rewrite log_log.
Qed.

Lemma emissions_core : emissions core =
  if bool_decide (Py.adler32 b1 = Py.adler32 b2) then [(b1, l)]
  else [(b1, l); (b2, l)].
Proof. unfold core. by destruct (bool_decide _). Qed.

Lemma warnings_core : warnings core =
  if bool_decide (Py.adler32 b1 = Py.adler32 b2) then [] else [s].
Proof. unfold core. by destruct (bool_decide _). Qed.

End TwoObjects.

(** C3: outside list mode, when some pattern matches the common path of two
    unpacked objects, the run leaves both objects holding their bytes and:
    if the two checksums are equal it emits the first payload only and warns
    of nothing; if they differ it emits both payloads, in order, and warns
    exactly once, about that path. *)
Theorem C3_same_path_deduplicated_by_checksum
    (args : PathExtractorArgs) (meta_path : option string)
    (objects : list UnpackResult) (a1 a2 : addr) (r1 r2 : UnpackResult)
    (Hlist : list_ args = false)
    (Hr1 : objects !! a1 = Some r1)
    (Hr2 : objects !! a2 = Some r2)
    (Hsame : path r1 = path r2)
    (Hmatch : PathExtractorUnit._check_path args (path r1) = true) :
  let st := PathExtractorUnit.run args meta_path objects [a1; a2] in
  let l := label args (default "" meta_path) objects a1 in
  exists b1 b2,
    materialised st a1 (path r1) b1 /\
    materialised st a2 (path r2) b2 /\
    (forall c, data r1 = Concrete c -> b1 = c) /\
    (forall c, data r2 = Concrete c -> b2 = c) /\
    (Py.adler32 b1 = Py.adler32 b2 ->
       emissions (trace st) = [(b1, l)] /\ warnings (trace st) = []) /\
    (Py.adler32 b1 <> Py.adler32 b2 ->
       emissions (trace st) = [(b1, l); (b2, l)] /\
       warnings (trace st) = [path r1]).
Proof.
  intros st l.
  set (st0 := {| heap := objects; clock := O; trace := [] |}).
  set (root := if join args then default "" meta_path else "").
  (* the first loop *)
  destruct (get_data_step st0 a1 r1 Hr1)
    as (b1 & n1 & Hm1 & Htr1 & Hkeep1 & Hother1 & Hc1).
  set (st1 := (get_data a1 st0).2) in *.
  assert (exists r2', heap st1 !! a2 = Some r2' /\ path r2' = path r2 /\
            (forall c, data r2 = Concrete c -> data r2' = Concrete c))
    as (r2' & Hr2' & Hpath2 & Hdata2).
  { destruct (decide (a2 = a1)) as [->|Hne].
    - exists {| path := path r1; data := Concrete b1 |}.
      split; [exact Hm1|]. split; [done|].
      intros c Hc. simpl. rewrite Hr1 in Hr2. injection Hr2 as <-.
      by rewrite (Hc1 c Hc).
    - exists r2. by rewrite (Hother1 a2 Hne). }
  destruct (get_data_step st1 a2 r2' Hr2')
    as (b2 & n2 & Hm2 & Htr2 & Hkeep2 & _ & Hc2).
  set (st2 := (get_data a2 st1).2) in *.
  apply Hkeep2 in Hm1. rewrite Hpath2 in Hm2.
  assert (Hcollect : PathExtractorUnit.collect args [a1; a2] [] st0
                     = ([a1; a2], st2)).
  { rewrite collect_wanted; [|done|].
    2:{ unfold path_at. simpl. by rewrite Hr1. }
    fold st1. rewrite collect_wanted; [|done|].
    2:{ unfold path_at. rewrite Hr2'. by rewrite Hpath2, <- Hsame. }
    done. }
  (* the second loop *)
  assert (Hm2' : materialised st2 a2 (path r1) b2) by (by rewrite Hsame).
  destruct (for_patterns_first args root a1 a2 (path r1) b1 b2 Hlist
              (patterns args) ∅ st2 (conj Hm1 Hm2') (lookup_empty _) Hmatch)
    as (n & m & Hfinal).
  assert (Hl : l = if join args then Py.path_join root (path r1) else path r1).
  { unfold l, label, root, path_at. rewrite Hr1. by destruct (join args). }
  rewrite <- Hl in Hfinal.
  assert (Hst : st = log st2
    (repeat LogDebug n ++
     (if bool_decide (Py.adler32 b1 = Py.adler32 b2)
      then [LogInfo l; YieldChunk b1 l]
      else [LogInfo l; YieldChunk b1 l; LogWarn (path r1); LogInfo l;
            YieldChunk b2 l]) ++
     repeat LogDebug m)).
  { unfold st, PathExtractorUnit.run. fold st0.
    rewrite process_passes, Hcollect. exact Hfinal. }
  assert (Hquiet : emissions (trace st2) = [] /\ warnings (trace st2) = []).
  { rewrite Htr2, Htr1. simpl. rewrite emissions_app, warnings_app.
    by rewrite !emissions_invokes, !warnings_invokes. }
  destruct Hquiet as [Hq1 Hq2].
  assert (Hout : forall core,
    emissions (trace (log st2 (repeat LogDebug n ++ core ++ repeat LogDebug m)))
      = emissions core /\
    warnings (trace (log st2 (repeat LogDebug n ++ core ++ repeat LogDebug m)))
      = warnings core).
  { intros core. simpl. rewrite !emissions_app, !warnings_app.
    rewrite !emissions_debug, !warnings_debug, Hq1, Hq2. simpl.
    by rewrite !app_nil_r. }
  exists b1, b2. split; [|split; [|split; [done|split; [|split]]]].
  - by rewrite Hst.
  - by rewrite Hst.
  - intros c Hc. apply Hc2. by apply Hdata2.
  - intros Heq. rewrite Hst. destruct (Hout [LogInfo l; YieldChunk b1 l]) as [He Hw].
    by rewrite bool_decide_eq_true_2, He, Hw.
  - intros Hne. rewrite Hst, bool_decide_eq_false_2 by done.
    destruct (Hout [LogInfo l; YieldChunk b1 l; LogWarn (path r1); LogInfo l;
                    YieldChunk b2 l]) as [He Hw].
    by rewrite He, Hw.
Qed.

Lemma C3_same_path_deduplicated_by_checksum_witness :
  let objects := [ {| path := "a/b"; data := Concrete ["A"]%byte |};
                   {| path := "a/b"; data := Concrete ["B"]%byte |} ] in
  let st := PathExtractorUnit.run
              (PathExtractorUnit.init ["a/*"] false false false) None
              objects [O; 1%nat] in
  emissions (trace st) = [(["A"]%byte, "a/b"); (["B"]%byte, "a/b")] /\
  warnings (trace st) = ["a/b"].
Proof.
  intros objects st.
  destruct (C3_same_path_deduplicated_by_checksum
              (PathExtractorUnit.init ["a/*"] false false false) None
              objects O 1%nat
              {| path := "a/b"; data := Concrete ["A"]%byte |}
              {| path := "a/b"; data := Concrete ["B"]%byte |}
              eq_refl eq_refl eq_refl eq_refl eq_refl)
    as (b1 & b2 & _ & _ & Hb1 & Hb2 & _ & Hdiffer).
  rewrite (Hb1 _ eq_refl), (Hb2 _ eq_refl) in Hdiffer.
  apply Hdiffer. vm_compute. discriminate.
Defined.

(** C2, as stated, fails: with the patterns [*.txt] and [*] and the single
    object [x.txt] the run emits one chunk, not two. *)
Lemma C2_shared_ledger_emits_once :
  emissions
    (trace (PathExtractorUnit.run
              (PathExtractorUnit.init ["*.txt"; "*"] false false false) None
              [ {| path := "x.txt"; data := Concrete (Py.encode "hello") |} ]
              [O]))
  = [(Py.encode "hello", "x.txt")].
Proof. vm_compute. reflexivity. Qed.

(** C2, as amended: with the patterns [*.txt] and [*] and the single object
    [x.txt], a run outside list mode emits the object once, labelled
    [x.txt]: the second pattern finds its checksum in the ledger.  In list
    mode the path is emitted twice, once for each pattern. *)
Theorem C2_one_emission_for_two_patterns
    (d : payload) (meta_path : option string) (regex : bool) :
  let objects := [ {| path := "x.txt"; data := d |} ] in
  let st := PathExtractorUnit.run
              (PathExtractorUnit.init ["*.txt"; "*"] false false regex)
              meta_path objects [O] in
  (exists b,
     materialised st O "x.txt" b /\
     (forall c, d = Concrete c -> b = c) /\
     emissions (trace st) = [(b, "x.txt")] /\
     warnings (trace st) = []) /\
  listed (trace (PathExtractorUnit.run
                   (PathExtractorUnit.init ["*.txt"; "*"] true false regex)
                   meta_path objects [O]))
  = [Py.encode "x.txt"; Py.encode "x.txt"].
Proof.
  intros objects st. split; [|reflexivity].
  set (args := PathExtractorUnit.init ["*.txt"; "*"] false false regex) in *.
  set (st0 := {| heap := objects; clock := O; trace := [] |}).
  destruct (get_data_step st0 O {| path := "x.txt"; data := d |} eq_refl)
    as (b & n & Hm & Htr & _ & _ & Hc).
  set (st1 := (get_data O st0).2) in *. simpl path in Hm.
  assert (Hst : st = log st1 [LogDebug; LogInfo "x.txt"; YieldChunk b "x.txt";
                              LogDebug]).
  { unfold st, PathExtractorUnit.run. fold st0. rewrite process_passes.
    rewrite collect_wanted by done. fold st1.
    change (patterns args)
      with [PathPattern.wildcard "*.txt"; PathPattern.wildcard "*"].
    change (if join args then default "" meta_path else "") with "".
    cbn [PathExtractorUnit.collect app]. unfold ret. cbn [fst snd].
    rewrite for_patterns_cons, for_results_cons.
    rewrite (visit_hit args "" (PathPattern.wildcard "*.txt") ∅
               (log st1 [LogDebug]) O "x.txt" b eq_refl Hm eq_refl).
    rewrite lookup_empty, log_log. cbn [PathExtractorUnit.for_results].
    unfold ret. cbn [fst snd].
    rewrite for_patterns_cons, for_results_cons, log_log.
    rewrite (visit_hit args "" (PathPattern.wildcard "*") _ _ O "x.txt" b
               eq_refl (materialised_log st1 _ _ _ _ Hm) eq_refl).
    unfold PathExtractorUnit.ledger_add.
    rewrite lookup_insert_eq, lookup_empty. simpl default.
    by rewrite bool_decide_eq_true_2
      by (apply elem_of_union_r, elem_of_singleton; done). }
  exists b. split; [by rewrite Hst|]. split; [by apply Hc|].
  rewrite Hst. simpl. rewrite Htr. simpl.
  rewrite emissions_app, warnings_app, emissions_invokes, warnings_invokes.
  done.
Qed.

(** * Further properties *)

(** ** [pathspec] *)

Section Pathspec.

Lemma pathspec_get (expression : string) (k : nat) :
  String.get k (pathspec expression)
    = (fun c => if Ascii.eqb c "\" then "/"%char else c)
        <$> String.get k expression.
Proof.
  revert k. induction expression as [|c rest IH]; intros k; simpl; [done|].
  destruct k as [|k]; [done | apply IH].
Qed.

End Pathspec.

(** X1: [pathspec] keeps the length of the expression, turns every backslash
    into a forward slash and keeps every other character; its result holds
    no backslash, so normalising twice is normalising once, and an
    expression without backslash is returned as it is. *)
Theorem X1_pathspec_normalises (expression : string) :
  String.length (pathspec expression) = String.length expression /\
  (forall k c, String.get k expression = Some c ->
     String.get k (pathspec expression)
       = Some (if Ascii.eqb c "\" then "/"%char else c)) /\
  (forall k, String.get k (pathspec expression) <> Some "\"%char) /\
  pathspec (pathspec expression) = pathspec expression /\
  ((forall k, String.get k expression <> Some "\"%char) ->
   pathspec expression = expression).
Proof.
  split; [|split; [|split; [|split]]].
  - induction expression as [|c rest IH]; simpl; [done | by rewrite IH].
  - intros k c Hk. by rewrite pathspec_get, Hk.
  - intros k. rewrite pathspec_get.
    destruct (String.get k expression) as [c|]; [|done]. simpl.
    destruct (Ascii.eqb c "\") eqn:Hc; [done|].
    apply Ascii.eqb_neq in Hc. congruence.
  - induction expression as [|c rest IH]; simpl; [done|]. rewrite IH.
    by destruct (Ascii.eqb c "\") eqn:Hc; [|rewrite Hc].
  - induction expression as [|c rest IH]; intros Hnone; simpl; [done|].
    rewrite IH by (intros k; apply (Hnone (S k))).
    destruct (Ascii.eqb c "\") eqn:Hc; [|done].
    apply Ascii.eqb_eq in Hc as ->. by destruct (Hnone O).
Qed.

(** ** The memory reader, continued *)

Section MemoryReaderMore.

Import MemoryExtractorUnit.

Lemma utf16_scan_found (data : bytes) (e : Z) (rest : list Z) :
  zero_at data e -> zero_at data (e + 1) ->
  utf16_scan data (e :: rest) = Ok e.
Proof.
  intros [He Hlo] [He' Hhi]. simpl.
  by rewrite (index_inside data e x00 He Hlo),
             (index_inside data (e + 1) x00 He' Hhi).
Qed.

(** A position the scan returns is one of the positions it was given. *)
Lemma utf16_scan_in (data : bytes) (ends : list Z) (e : Z) :
  utf16_scan data ends = Ok e -> e ∈ ends.
Proof.
  induction ends as [|e0 ends IH]; simpl; [done|].
  destruct (Py.index data e0) as [lo|]; [|done].
  destruct (negb (is_zero lo)); [intros H; right; by apply IH|].
  destruct (Py.index data (e0 + 1)) as [hi|]; [|done].
  destruct (is_zero hi); [intros [= ->]; left | intros H; right; by apply IH].
Qed.

Lemma range2_in (start stop e : Z) :
  e ∈ Py.range2 start stop ->
  exists k : nat, e = start + 2 * Z.of_nat k /\ e < stop.
Proof.
  unfold Py.range2. intros He.
  apply list_elem_of_In, in_map_iff in He as (k & <- & Hk).
  apply in_seq in Hk. exists k. split; [done|].
  assert (0 < (stop - start + 1) / 2) as Hpos by lia.
  pose proof (Z.mul_div_le (stop - start + 1) 2 ltac:(lia)). lia.
Qed.

Lemma range2_split (start stop : Z) (k : nat) :
  start + 2 * Z.of_nat k < stop ->
  exists rest,
    Py.range2 start stop
      = map (fun j => start + 2 * Z.of_nat j) (seq 0 k)
        ++ (start + 2 * Z.of_nat k) :: rest.
Proof.
  intros Hk. unfold Py.range2.
  set (n := Z.to_nat ((stop - start + 1) / 2)).
  assert (k < n)%nat as Hlt.
  { unfold n.
    assert (Z.of_nat k + 1 <= (stop - start + 1) / 2); [|lia].
    apply Z.div_le_lower_bound; lia. }
  replace n with (k + S (n - S k))%nat by lia.
  rewrite seq_app, map_app. simpl. by eexists.
Qed.

Lemma slice_length_bound {A} (data : list A) (start e : Z) :
  (length (Py.slice data start (Some e))
   <= Z.to_nat (Py.clamp (Z.of_nat (length data)) e
                - Py.clamp (Z.of_nat (length data)) start))%nat.
Proof. unfold Py.slice. rewrite length_take. lia. Qed.

(** The bytes of a slice are bytes of the buffer between the two bounds. *)
Lemma slice_elem {A} (data : list A) (start e : Z) (x : A) :
  x ∈ Py.slice data start (Some e) ->
  exists i, Py.clamp (Z.of_nat (length data)) start <= i
            < Py.clamp (Z.of_nat (length data)) e /\
            data !! Z.to_nat i = Some x.
Proof.
  unfold Py.slice. intros Hx.
  pose proof (clamp_bounds (Z.of_nat (length data)) start ltac:(lia)) as Hlo.
  apply list_elem_of_lookup in Hx as (j & Hj).
  apply lookup_take_Some in Hj as [Hj Hlt]. rewrite lookup_drop in Hj.
  exists (Py.clamp (Z.of_nat (length data)) start + Z.of_nat j).
  split; [lia|]. rewrite <- Hj. f_equal. lia.
Qed.

End MemoryReaderMore.

(** X2: in UTF-16 mode, read from a non-negative offset, the search ends at
    the first aligned pair of zero bytes [e]: without a count bound the
    reader returns [data[start:e]]. *)
Theorem X2_utf16_reads_up_to_first_pair
    (args : MemoryExtractorUnit.Args) (data : bytes) (start e : Z)
    (end_ : option Z)
    (Hascii : MemoryExtractorUnit.ascii args = false)
    (Hutf16 : MemoryExtractorUnit.utf16 args = true)
    (Hstart : 0 <= start)
    (Hpair : aligned_zero_pair data start e)
    (Hfirst : forall e', aligned_zero_pair data start e' -> e <= e') :
  MemoryExtractorUnit.terminator args data start end_ = Ok (Some e) /\
  (MemoryExtractorUnit.count args = 0 ->
   MemoryExtractorUnit._read_from_memory args data (start, end_)
     = Ok (Py.slice data start (Some e))).
Proof.
  assert (Hterm : MemoryExtractorUnit.terminator args data start end_
                  = Ok (Some e)).
  { unfold MemoryExtractorUnit.terminator. rewrite Hascii, Hutf16.
    destruct Hpair as ((k & ->) & Hz & Hz').
    pose proof Hz' as [_ Hin]. apply lookup_lt_Some in Hin.
    destruct (range2_split start (Z.of_nat (length data)) k) as (rest & ->);
      [lia|].
    rewrite utf16_scan_skip; [by rewrite utf16_scan_found|].
    apply Forall_forall. intros e' He'.
    apply list_elem_of_In, in_map_iff in He' as (j & <- & Hj).
    apply in_seq in Hj. split; [lia|]. split; [lia|].
    intros [Hzj Hzj'].
    assert (start + 2 * Z.of_nat k <= start + 2 * Z.of_nat j); [|lia].
    apply Hfirst. split; [by exists j | done]. }
  split; [done|]. intros Hcount.
  unfold MemoryExtractorUnit._read_from_memory. rewrite Hterm.
  unfold MemoryExtractorUnit.bound. by rewrite Hcount.
Qed.

Lemma X2_utf16_reads_up_to_first_pair_witness :
  MemoryExtractorUnit._read_from_memory
    {| MemoryExtractorUnit.count := 0;
       MemoryExtractorUnit.utf16 := true;
       MemoryExtractorUnit.ascii := false |}
    ["A"; x00; "B"; x00; x00; x00]%byte (0, None)
  = Ok ["A"; x00; "B"; x00]%byte.
Proof.
  refine (proj2 (X2_utf16_reads_up_to_first_pair
           {| MemoryExtractorUnit.count := 0;
              MemoryExtractorUnit.utf16 := true;
              MemoryExtractorUnit.ascii := false |}
           ["A"; x00; "B"; x00; x00; x00]%byte 0 4 None
           eq_refl eq_refl _ _ _) eq_refl).
  - lia.
  - split; [by exists 2%nat|]. split; (split; [lia | reflexivity]).
  - intros e' ((k & ->) & [_ Hz] & _).
    destruct k as [|[|k]]; [discriminate | discriminate | lia].
Defined.

(** X3: in UTF-16 mode, read from a non-negative offset that leaves an even
    number of bytes (or none), the reader raises EndOfStringNotFound when
    no aligned pair of zero bytes follows. *)
Theorem X3_utf16_even_tail_not_found
    (args : MemoryExtractorUnit.Args) (data : bytes) (start : Z)
    (end_ : option Z)
    (Hascii : MemoryExtractorUnit.ascii args = false)
    (Hutf16 : MemoryExtractorUnit.utf16 args = true)
    (Hstart : 0 <= start)
    (Heven : Z.even (Z.of_nat (length data) - start) = true \/
             Z.of_nat (length data) <= start)
    (Hnone : forall e, ~ aligned_zero_pair data start e) :
  MemoryExtractorUnit._read_from_memory args data (start, end_)
    = Raise EndOfStringNotFound.
Proof.
  unfold MemoryExtractorUnit._read_from_memory, MemoryExtractorUnit.terminator.
  rewrite Hascii, Hutf16.
  rewrite <- (app_nil_r (Py.range2 _ _)), utf16_scan_skip; [done|].
  apply Forall_forall. intros e He.
  destruct (range2_in _ _ _ He) as (k & -> & Hlt).
  split; [lia|]. split.
  - destruct Heven as [Heven|Hbeyond]; [|lia].
    apply Z.even_spec in Heven as [q Hq]. lia.
  - intros [Hz Hz']. apply (Hnone (start + 2 * Z.of_nat k)).
    split; [by exists k | done].
Qed.

Lemma X3_utf16_even_tail_not_found_witness :
  MemoryExtractorUnit._read_from_memory
    {| MemoryExtractorUnit.count := 0;
       MemoryExtractorUnit.utf16 := true;
       MemoryExtractorUnit.ascii := false |}
    ["A"; x00; x00; "B"]%byte (0, None)
  = Raise EndOfStringNotFound.
Proof.
  apply (X3_utf16_even_tail_not_found
           {| MemoryExtractorUnit.count := 0;
              MemoryExtractorUnit.utf16 := true;
              MemoryExtractorUnit.ascii := false |}
           ["A"; x00; x00; "B"]%byte 0 None eq_refl eq_refl).
  - lia.
  - by left.
  - intros e ((k & ->) & [_ Hz] & [_ Hz']).
    destruct k as [|[|k]]; try discriminate.
    apply lookup_lt_Some in Hz. simpl in Hz. lia.
Defined.

(** X4: read from a non-negative offset with a positive count (and an end
    from the offset oracle that is absent or non-negative), the reader
    returns at most [count] bytes, whatever the terminator flags. *)
Theorem X4_count_limits_the_length
    (args : MemoryExtractorUnit.Args) (data r : bytes) (start : Z)
    (end_ : option Z)
    (Hstart : 0 <= start)
    (Hcount : 0 < MemoryExtractorUnit.count args)
    (Hend : forall e, end_ = Some e -> 0 <= e)
    (Hread : MemoryExtractorUnit._read_from_memory args data (start, end_)
             = Ok r) :
  Z.of_nat (length r) <= MemoryExtractorUnit.count args.
Proof.
  unfold MemoryExtractorUnit._read_from_memory in Hread.
  destruct (MemoryExtractorUnit.terminator args data start end_)
    as [o|] eqn:Hterm; [|done].
  injection Hread as <-.
  assert (Ho : forall e, o = Some e -> 0 <= e).
  { intros e ->. unfold MemoryExtractorUnit.terminator in Hterm.
    destruct (MemoryExtractorUnit.ascii args).
    - destruct (Py.find0 data start <? 0) eqn:Hneg; [done|].
      injection Hterm as <-. lia.
    - destruct (MemoryExtractorUnit.utf16 args);
        [|injection Hterm as Heq; by apply Hend].
      destruct (MemoryExtractorUnit.utf16_scan data _) as [e'|] eqn:Hscan;
        [|done].
      injection Hterm as ->. apply utf16_scan_in, range2_in in Hscan.
      destruct Hscan as (k & -> & _). lia. }
  unfold MemoryExtractorUnit.bound.
  assert ((MemoryExtractorUnit.count args =? 0) = false) as -> by lia.
  set (lbound := start + MemoryExtractorUnit.count args).
  assert (exists x, 0 <= x <= lbound /\
            match o with Some e => Some (Z.min e lbound) | None => Some lbound end
            = Some x) as (x & Hx & ->).
  { destruct o as [e|].
    - exists (Z.min e lbound). pose proof (Ho e eq_refl). split; [lia | done].
    - exists lbound. split; [lia | done]. }
  pose proof (slice_length_bound data start x) as Hlen.
  unfold Py.clamp in Hlen.
  assert ((x <? 0) = false) as Hx0 by lia.
  assert ((start <? 0) = false) as Hs0 by lia.
  rewrite Hx0, Hs0 in Hlen. lia.
Qed.

Lemma X4_count_limits_the_length_witness :
  MemoryExtractorUnit._read_from_memory
    {| MemoryExtractorUnit.count := 2;
       MemoryExtractorUnit.utf16 := false;
       MemoryExtractorUnit.ascii := true |}
    ["A"; "B"; "C"; "D"; x00]%byte (1, None) = Ok ["B"; "C"]%byte /\
  Z.of_nat (length ["B"; "C"]%byte) <= 2.
Proof.
  split; [reflexivity|].
  exact (X4_count_limits_the_length
           {| MemoryExtractorUnit.count := 2;
              MemoryExtractorUnit.utf16 := false;
              MemoryExtractorUnit.ascii := true |}
           ["A"; "B"; "C"; "D"; x00]%byte ["B"; "C"]%byte 1 None
           ltac:(lia) ltac:(simpl; lia) ltac:(discriminate) eq_refl).
Defined.

(** X5: in ASCII mode, read from a non-negative offset with a non-negative
    count, the bytes the reader returns hold no zero byte. *)
Theorem X5_ascii_result_has_no_zero_byte
    (args : MemoryExtractorUnit.Args) (data r : bytes) (start : Z)
    (end_ : option Z)
    (Hascii : MemoryExtractorUnit.ascii args = true)
    (Hstart : 0 <= start)
    (Hcount : 0 <= MemoryExtractorUnit.count args)
    (Hread : MemoryExtractorUnit._read_from_memory args data (start, end_)
             = Ok r) :
  x00 ∉ r.
Proof.
  unfold MemoryExtractorUnit._read_from_memory,
    MemoryExtractorUnit.terminator in Hread.
  rewrite Hascii in Hread.
  destruct (find0_spec data start) as [[Hf _]|(i & Hf & Hfirst)];
    rewrite Hf in Hread; [done|].
  destruct Hfirst as (Hsi & [Hi0 _] & Hmin).
  assert ((i <? 0) = false) as Hnn by lia. rewrite Hnn in Hread.
  injection Hread as <-.
  assert (exists x, 0 <= x <= i /\
            MemoryExtractorUnit.bound args start (Some i) = Some x)
    as (x & Hx & ->).
  { unfold MemoryExtractorUnit.bound.
    destruct (MemoryExtractorUnit.count args =? 0).
    - exists i. split; [lia | done].
    - exists (Z.min i (start + MemoryExtractorUnit.count args)).
      split; [lia | done]. }
  intros Hin. apply slice_elem in Hin as (j & Hj & Hz).
  apply (Hmin j).
  - unfold Py.clamp in Hj |- *. assert ((x <? 0) = false) as Hx0 by lia.
    rewrite Hx0 in Hj. lia.
  - split; [|done].
    pose proof (clamp_bounds (Z.of_nat (length data)) start ltac:(lia)). lia.
Qed.

Lemma X5_ascii_result_has_no_zero_byte_witness :
  MemoryExtractorUnit._read_from_memory
    {| MemoryExtractorUnit.count := 0;
       MemoryExtractorUnit.utf16 := false;
       MemoryExtractorUnit.ascii := true |}
    ["A"; "B"; "C"; x00; "D"]%byte (1, None) = Ok ["B"; "C"]%byte /\
  x00 ∉ (["B"; "C"]%byte : bytes).
Proof.
  split; [reflexivity|].
  exact (X5_ascii_result_has_no_zero_byte
           {| MemoryExtractorUnit.count := 0;
              MemoryExtractorUnit.utf16 := false;
              MemoryExtractorUnit.ascii := true |}
           ["A"; "B"; "C"; x00; "D"]%byte ["B"; "C"]%byte 1 None
           eq_refl ltac:(lia) ltac:(simpl; lia) eq_refl).
Defined.

(** ** The second loop over objects that hold their bytes *)

Section SecondLoop.

Variables (args : PathExtractorArgs) (root : string).

Hypothesis Hlist : list_ args = false.

Lemma get_data_settled (st : state) (a : addr) :
  settled (heap st) a -> get_data a st = (bytes_at (heap st) a, st).
Proof.
  unfold settled, bytes_at. destruct (heap st !! a) as [r|] eqn:Hr.
  - destruct r as [s [d|f]]; simpl; [intros _ | done].
    by apply (get_data_hit st a s d).
  - intros _. by apply get_data_dangling.
Qed.

Lemma visit_settled (p : PathPattern) (paths : gmap string (gset Z))
    (st : state) (a : addr) :
  settled (heap st) a ->
  PathExtractorUnit.visit args root p paths a st
    = ((turn args root p paths (path_at (heap st) a) (bytes_at (heap st) a)).1,
       log st (turn args root p paths (path_at (heap st) a)
                 (bytes_at (heap st) a)).2).
Proof.
  intros Hset. unfold PathExtractorUnit.visit, turn.
  unfold bind at 1. unfold attr_path.
  destruct (PathPattern.check p (path_at (heap st) a)); simpl;
    [|by rewrite log_nil].
  rewrite Hlist. simpl. unfold bind at 1. rewrite (get_data_settled st a Hset).
  assert (Hdeliver : forall evs,
    PathExtractorUnit.deliver args root a (path_at (heap st) a) (log st evs)
    = (tt, log st (evs ++
         [LogInfo (if join args then Py.path_join root (path_at (heap st) a)
                   else path_at (heap st) a);
          YieldChunk (bytes_at (heap st) a)
            (if join args then Py.path_join root (path_at (heap st) a)
             else path_at (heap st) a)]))).
  { intros evs. unfold PathExtractorUnit.deliver. rewrite Hlist.
    unfold bind, emit.
    rewrite (get_data_settled
               {| heap := heap (log st evs); clock := clock (log st evs);
                  trace := trace (log st evs) ++ [LogInfo _] |} a Hset).
    unfold log. simpl. by rewrite <- !app_assoc. }
  destruct (paths !! path_at (heap st) a) as [seen|].
  - destruct (bool_decide _); simpl; [by rewrite log_nil|].
    unfold bind, emit. cbv beta iota.
    fold (log st [LogWarn (path_at (heap st) a)]).
    by rewrite Hdeliver.
  - unfold bind. pose proof (Hdeliver []) as Hd. rewrite log_nil in Hd.
    by rewrite Hd.
Qed.

Lemma for_results_replay (p : PathPattern) (results : list addr)
    (paths : gmap string (gset Z)) (st : state) :
  Forall (settled (heap st)) results ->
  PathExtractorUnit.for_results args root p results paths st
    = ((replay_results args root p (map (item_at (heap st)) results) paths).1,
       log st (replay_results args root p
                 (map (item_at (heap st)) results) paths).2).
Proof.
  revert paths st. induction results as [|a results IH]; intros paths st Hall.
  - simpl. unfold ret. by rewrite log_nil.
  - apply Forall_cons in Hall as [Ha Hall].
    rewrite for_results_cons, (visit_settled p paths st a Ha). simpl.
    destruct (turn args root p paths (path_at (heap st) a)
                (bytes_at (heap st) a)) as [paths1 evs1].
    cbn [fst snd]. rewrite (IH paths1 (log st evs1) Hall). simpl.
    destruct (replay_results args root p _ paths1) as [paths2 evs2].
    cbn [fst snd]. by rewrite log_log.
Qed.

Lemma for_patterns_replay (ps : list PathPattern) (results : list addr)
    (paths : gmap string (gset Z)) (st : state) :
  Forall (settled (heap st)) results ->
  PathExtractorUnit.for_patterns args root ps results paths st
    = ((replay_patterns args root ps (map (item_at (heap st)) results) paths).1,
       log st (replay_patterns args root ps
                 (map (item_at (heap st)) results) paths).2).
Proof.
  revert paths st. induction ps as [|p ps IH]; intros paths st Hall.
  - simpl. unfold ret. by rewrite log_nil.
  - rewrite for_patterns_cons.
    rewrite (for_results_replay p results paths (log st [LogDebug]) Hall).
    simpl.
    destruct (replay_results args root p _ paths) as [paths1 evs1].
    cbn [fst snd]. rewrite (IH paths1 (log (log st [LogDebug]) evs1) Hall).
    simpl.
    destruct (replay_patterns args root ps _ paths1) as [paths2 evs2].
    cbn [fst snd]. by rewrite !log_log.
Qed.

End SecondLoop.

(** ** The first loop *)

Section FirstLoop.

Variable args : PathExtractorArgs.

Lemma invocations_app (a : addr) (t1 t2 : list event) :
  invocations a (t1 ++ t2) = (invocations a t1 + invocations a t2)%nat.
Proof. unfold invocations. by rewrite omap_app, length_app. Qed.

Lemma collected_ext (h h' : list UnpackResult) (unpacked : list addr) :
  (forall a, path_at h' a = path_at h a) ->
  collected args h' unpacked = collected args h unpacked.
Proof.
  intros Hpath. unfold collected. apply list_filter_iff. intros a.
  by rewrite Hpath.
Qed.

(** What one [get_data] does to the store and to the trace. *)
Lemma get_data_facts (st : state) (a : addr) :
  let st1 := (get_data a st).2 in
  (forall a', path_at (heap st1) a' = path_at (heap st) a') /\
  settled (heap st1) a /\
  (forall a', settled (heap st) a' ->
     settled (heap st1) a' /\ bytes_at (heap st1) a' = bytes_at (heap st) a') /\
  (forall a', a' <> a -> heap st1 !! a' = heap st !! a') /\
  trace st1 = trace st ++ (if deferred (heap st) a then [Invoke a] else []).
Proof.
  destruct (heap st !! a) as [r|] eqn:Hr.
  - destruct (get_data_effect st a r Hr) as (b & n & Hget & Hdata).
    rewrite Hget. simpl.
    assert (Hlt : (a < length (heap st))%nat) by (by eapply lookup_lt_Some).
    split; [|split; [|split; [|split]]].
    + intros a'. by apply path_at_insert.
    + unfold settled. by rewrite list_lookup_insert_eq.
    + intros a' Hset. unfold settled, bytes_at in *.
      destruct (decide (a' = a)) as [->|Hne].
      * rewrite list_lookup_insert_eq by done. rewrite Hr in Hset |- *. simpl.
        destruct (data r) as [d|f]; [|done]. by destruct Hdata as [-> _].
      * by rewrite list_lookup_insert_ne.
    + intros a' Hne. by rewrite list_lookup_insert_ne.
    + unfold deferred. rewrite Hr.
      destruct (data r); destruct Hdata as [_ ->]; done.
  - rewrite (get_data_dangling st a Hr). simpl.
    split; [done|]. split; [unfold settled; by rewrite Hr|].
    split; [done|]. split; [done|].
    unfold deferred. rewrite Hr. by rewrite app_nil_r.
Qed.

Lemma deferred_settled (h : list UnpackResult) (a : addr) :
  settled h a -> deferred h a = false.
Proof.
  unfold settled, deferred. destruct (h !! a) as [r|]; [|done].
  by destruct (data r).
Qed.

(** Outside list mode the first loop collects the wanted objects in order,
    leaves each of them holding its bytes, keeps all paths and calls the
    producer of each wanted object that still has one, once. *)
Lemma collect_spec (unpacked results : list addr) (st : state) :
  list_ args = false ->
  let out := PathExtractorUnit.collect args unpacked results st in
  out.1 = results ++ collected args (heap st) unpacked /\
  (forall a, path_at (heap out.2) a = path_at (heap st) a) /\
  (forall a, settled (heap st) a ->
     settled (heap out.2) a /\ bytes_at (heap out.2) a = bytes_at (heap st) a) /\
  (forall a, a ∈ collected args (heap st) unpacked -> settled (heap out.2) a) /\
  (forall a, a ∉ collected args (heap st) unpacked ->
     heap out.2 !! a = heap st !! a) /\
  exists invs,
    trace out.2 = trace st ++ invs /\ Forall is_invoke invs /\
    forall a, invocations a invs =
      if deferred (heap st) a
         && bool_decide (a ∈ collected args (heap st) unpacked)
      then 1%nat else O.
Proof.
  intros Hlist. revert results st.
  induction unpacked as [|a unpacked IH]; intros results st out.
  - unfold out. clear out. simpl. unfold ret. simpl. rewrite app_nil_r.
    split; [done|]. split; [done|]. split; [done|].
    split; [intros a Ha; inversion Ha|].
    split; [done|].
    exists []. rewrite app_nil_r. split; [done|]. split; [done|].
    intros a. by rewrite andb_false_r.
  - destruct (PathExtractorUnit._check_path args (path_at (heap st) a))
      eqn:Hwant.
    + assert (Hout : out = PathExtractorUnit.collect args unpacked
                             (results ++ [a]) (get_data a st).2).
      { unfold out. by apply collect_wanted. }
      destruct (get_data_facts st a) as (Hpath & Hset & Hkeep & Hother & Htr).
      set (st1 := (get_data a st).2) in *.
      destruct (IH (results ++ [a]) st1)
        as (Hres & Hpath' & Hkeep' & Hset' & Hother' &
            invs & Htr' & Hinvs & Hcount).
      rewrite <- Hout in Hres, Hpath', Hkeep', Hset', Hother', Htr'.
      rewrite (collected_ext (heap st) (heap st1) unpacked Hpath)
        in Hres, Hset', Hother', Hcount.
      assert (Hcons : collected args (heap st) (a :: unpacked)
                      = a :: collected args (heap st) unpacked).
      { unfold collected. by rewrite filter_cons_True. }
      rewrite Hcons.
      split; [by rewrite Hres, <- app_assoc|].
      split; [intros a'; by rewrite Hpath', Hpath|].
      split.
      { intros a' Ha'. destruct (Hkeep a' Ha') as [H1 H2].
        destruct (Hkeep' a' H1) as [H3 H4]. split; [done | by rewrite H4]. }
      split.
      { intros a' Ha'. apply elem_of_cons in Ha' as [->|Ha'];
          [by apply Hkeep' | by apply Hset']. }
      split.
      { intros a' Ha'. apply not_elem_of_cons in Ha' as [Hne Ha'].
        by rewrite Hother', Hother. }
      exists ((if deferred (heap st) a then [Invoke a] else []) ++ invs).
      split; [by rewrite Htr', Htr, app_assoc|].
      split.
      { apply Forall_app. split; [|done]. by destruct (deferred (heap st) a);
          repeat constructor. }
      intros a'. rewrite invocations_app, Hcount.
      destruct (decide (a' = a)) as [->|Hne].
      * rewrite (deferred_settled (heap st1) a Hset). simpl.
        rewrite bool_decide_eq_true_2 by left. rewrite andb_true_r.
        destruct (deferred (heap st) a); [|done].
        unfold invocations. simpl. by rewrite Nat.eqb_refl.
      * assert (deferred (heap st1) a' = deferred (heap st) a') as ->.
        { unfold deferred. by rewrite Hother. }
        assert (bool_decide (a' ∈ a :: collected args (heap st) unpacked)
                = bool_decide (a' ∈ collected args (heap st) unpacked)) as ->.
        { apply bool_decide_ext. rewrite elem_of_cons.
          split; [intros [Heq|Hin]; [congruence | done] | by right]. }
        assert (invocations a' (if deferred (heap st) a then [Invoke a] else [])
                = O) as ->; [|done].
        destruct (deferred (heap st) a); [|done].
        unfold invocations. simpl.
        by assert ((a =? a')%nat = false) as -> by (apply Nat.eqb_neq; congruence).
    + assert (Hout : out = PathExtractorUnit.collect args unpacked results st).
      { unfold out. simpl. unfold bind at 1. unfold attr_path. by rewrite Hwant. }
      assert (Hcons : collected args (heap st) (a :: unpacked)
                      = collected args (heap st) unpacked).
      { unfold collected. rewrite filter_cons_False; [done|]. by rewrite Hwant. }
      rewrite Hcons, Hout. apply IH.
Qed.

(** In list mode the first loop collects the wanted objects and touches
    nothing. *)
Lemma collect_list (unpacked results : list addr) (st : state) :
  list_ args = true ->
  PathExtractorUnit.collect args unpacked results st
    = (results ++ collected args (heap st) unpacked, st).
Proof.
  intros Hlist. revert results.
  induction unpacked as [|a unpacked IH]; intros results; simpl.
  - unfold ret. by rewrite app_nil_r.
  - unfold bind at 1. unfold attr_path. unfold collected.
    destruct (PathExtractorUnit._check_path args (path_at (heap st) a))
      eqn:Hwant.
    + rewrite Hlist. simpl. unfold bind, ret. rewrite IH.
      rewrite filter_cons_True by done. by rewrite <- app_assoc.
    + rewrite IH. rewrite filter_cons_False; [done|]. by rewrite Hwant.
Qed.

End FirstLoop.

(** ** What the second loop emits *)

Section ReplayFacts.

Variables (args : PathExtractorArgs) (root : string).

Let lab (s : string) : string :=
  if join args then Py.path_join root s else s.

Lemma in_ledger_add (paths : gmap string (gset Z)) (s s' : string) (c c' : Z) :
  in_ledger (PathExtractorUnit.ledger_add paths s c) s' c' = true <->
  in_ledger paths s' c' = true \/ (s' = s /\ c' = c).
Proof.
  unfold in_ledger, PathExtractorUnit.ledger_add.
  destruct (decide (s' = s)) as [->|Hne].
  - rewrite lookup_insert_eq, bool_decide_eq_true, elem_of_union,
      elem_of_singleton.
    destruct (paths !! s) as [cs|]; simpl.
    + rewrite bool_decide_eq_true. intuition.
    + rewrite elem_of_empty. intuition. discriminate.
  - rewrite lookup_insert_ne by done. intuition.
Qed.

(** A turn emits the chunk of its object when the pattern matches and the
    ledger lacks the checksum under the path, and nothing otherwise. *)
Lemma turn_emissions (p : PathPattern) (paths : gmap string (gset Z))
    (s : string) (d : bytes) :
  emissions (turn args root p paths s d).2 =
    if PathPattern.check p s && negb (in_ledger paths s (Py.adler32 d))
    then [(d, lab s)] else [].
Proof.
  unfold turn, in_ledger. destruct (PathPattern.check p s); simpl; [|done].
  destruct (paths !! s) as [cs|]; [|done].
  by destruct (bool_decide _).
Qed.

(** After a turn the ledger holds what it held, and the checksum of the
    object under its path if the pattern matches. *)
Lemma turn_ledger (p : PathPattern) (paths : gmap string (gset Z))
    (s s' : string) (d : bytes) (c' : Z) :
  in_ledger (turn args root p paths s d).1 s' c' = true <->
  in_ledger paths s' c' = true \/
  (PathPattern.check p s = true /\ s' = s /\ c' = Py.adler32 d).
Proof.
  unfold turn. destruct (PathPattern.check p s) eqn:Hcheck; cbn [negb].
  - destruct (paths !! s) as [cs|] eqn:Hs.
    + destruct (bool_decide (Py.adler32 d ∈ cs)) eqn:Hin; cbn [fst snd].
      * split; [by left|]. intros [H|(_ & -> & ->)]; [done|].
        unfold in_ledger. by rewrite Hs.
      * rewrite in_ledger_add. intuition.
    + cbn [fst snd]. rewrite in_ledger_add. intuition.
  - cbn [fst snd]. intuition. discriminate.
Qed.

Lemma turn_warnings (p : PathPattern) (paths : gmap string (gset Z))
    (s : string) (d : bytes) :
  warnings (turn args root p paths s d).2 =
    if PathPattern.check p s && negb (in_ledger paths s (Py.adler32 d))
       && bool_decide (is_Some (paths !! s))
    then [s] else [].
Proof.
  unfold turn, in_ledger. destruct (PathPattern.check p s); simpl; [|done].
  destruct (paths !! s) as [cs|]; simpl; [|done].
  by destruct (bool_decide (Py.adler32 d ∈ cs)).
Qed.

Lemma turn_quiet (p : PathPattern) (paths : gmap string (gset Z))
    (s : string) (d : bytes) (a : addr) :
  invocations a (turn args root p paths s d).2 = O.
Proof.
  unfold turn. destruct (PathPattern.check p s); simpl; [|done].
  destruct (paths !! s) as [cs|]; [|done].
  by destruct (bool_decide _).
Qed.

(** An invariant of the ledger and the events, kept by every turn and by
    the log line of every pattern, is kept by the two loops. *)
Lemma replay_results_inv (I : gmap string (gset Z) -> list event -> Prop)
    (p : PathPattern) (items : list (string * bytes)) :
  (forall s d paths evs,
     (s, d) ∈ items -> I paths evs ->
     I (turn args root p paths s d).1 (evs ++ (turn args root p paths s d).2)) ->
  forall paths evs,
    I paths evs ->
    I (replay_results args root p items paths).1
      (evs ++ (replay_results args root p items paths).2).
Proof.
  induction items as [|[s d] items IH]; intros Hturn paths evs HI; simpl.
  - by rewrite app_nil_r.
  - pose proof (Hturn s d paths evs ltac:(left) HI) as H1.
    destruct (turn args root p paths s d) as [paths1 evs1]. simpl in H1.
    assert (Hrest : forall s d paths evs,
      (s, d) ∈ items -> I paths evs ->
      I (turn args root p paths s d).1 (evs ++ (turn args root p paths s d).2)).
    { intros s' d' paths' evs' Hin. apply Hturn. by right. }
    pose proof (IH Hrest paths1 (evs ++ evs1) H1) as H2.
    destruct (replay_results args root p items paths1) as [paths2 evs2].
    simpl in *. by rewrite app_assoc.
Qed.

Lemma replay_patterns_inv (I : gmap string (gset Z) -> list event -> Prop)
    (ps : list PathPattern) (items : list (string * bytes)) :
  (forall paths evs, I paths evs -> I paths (evs ++ [LogDebug])) ->
  (forall p s d paths evs,
     p ∈ ps -> (s, d) ∈ items -> I paths evs ->
     I (turn args root p paths s d).1 (evs ++ (turn args root p paths s d).2)) ->
  forall paths evs,
    I paths evs ->
    I (replay_patterns args root ps items paths).1
      (evs ++ (replay_patterns args root ps items paths).2).
Proof.
  intros Hdebug. induction ps as [|p ps IH]; intros Hturn paths evs HI; simpl.
  - by rewrite app_nil_r.
  - pose proof (replay_results_inv I p items
                  (fun s d paths' evs' =>
                     Hturn p s d paths' evs' (list_elem_of_here p ps))
                  paths (evs ++ [LogDebug]) (Hdebug _ _ HI)) as H1.
    destruct (replay_results args root p items paths) as [paths1 evs1].
    simpl in H1.
    assert (Hrest : forall p s d paths evs,
      p ∈ ps -> (s, d) ∈ items -> I paths evs ->
      I (turn args root p paths s d).1 (evs ++ (turn args root p paths s d).2)).
    { intros p' s' d' paths' evs' Hin. apply Hturn. by right. }
    pose proof (IH Hrest paths1 ((evs ++ [LogDebug]) ++ evs1) H1) as H2.
    destruct (replay_patterns args root ps items paths1) as [paths2 evs2].
    simpl in *. by rewrite <- !app_assoc in H2.
Qed.

End ReplayFacts.

(** ** Whole runs *)

Section Runs.

Variable args : PathExtractorArgs.

Lemma flat_map_ext_in {A B} (f g : A -> list B) (l : list A) :
  (forall x, x ∈ l -> f x = g x) -> flat_map f l = flat_map g l.
Proof.
  induction l as [|x l IH]; intros Hfg; simpl; [done|].
  rewrite (Hfg x) by left. f_equal. apply IH. intros y Hy. apply Hfg. by right.
Qed.

(** A pattern of the unit matches, among the collected objects, the ones it
    matches among all unpacked objects. *)
Lemma matching_collected (p : PathPattern) (h : list UnpackResult)
    (unpacked : list addr) :
  p ∈ patterns args ->
  matching p h (collected args h unpacked) = matching p h unpacked.
Proof.
  intros Hp. unfold matching, collected. rewrite list_filter_filter.
  apply list_filter_iff. intros a. split; [by intros [? _]|].
  intros Hcheck. split; [done|].
  unfold PathExtractorUnit._check_path. apply existsb_true. by exists p.
Qed.

Lemma matching_ext (p : PathPattern) (h h' : list UnpackResult)
    (l : list addr) :
  (forall a, path_at h' a = path_at h a) -> matching p h' l = matching p h l.
Proof.
  intros Hpath. unfold matching. apply list_filter_iff. intros a.
  by rewrite Hpath.
Qed.

Lemma for_results_list (root : string) (p : PathPattern)
    (results : list addr) (paths : gmap string (gset Z)) (st : state) :
  list_ args = true ->
  PathExtractorUnit.for_results args root p results paths st
    = (paths,
       log st (map (fun a => YieldPath (Py.encode (label args root (heap st) a)))
                   (matching p (heap st) results))).
Proof.
  intros Hlist. revert st.
  induction results as [|a results IH]; intros st.
  - simpl. unfold ret. by rewrite log_nil.
  - rewrite for_results_cons. unfold matching.
    destruct (PathPattern.check p (path_at (heap st) a)) eqn:Hcheck.
    + rewrite (visit_list args root p paths st a Hlist Hcheck). cbn [fst snd].
      rewrite IH. rewrite filter_cons_True by done. simpl map.
      by rewrite log_log.
    + rewrite (visit_miss args root p paths st a Hcheck). cbn [fst snd].
      rewrite IH. rewrite filter_cons_False; [done|]. by rewrite Hcheck.
Qed.

Lemma for_patterns_list (root : string) (ps : list PathPattern)
    (results : list addr) (paths : gmap string (gset Z)) (st : state) :
  list_ args = true ->
  PathExtractorUnit.for_patterns args root ps results paths st
    = (paths,
       log st (flat_map
                 (fun p => LogDebug ::
                    map (fun a => YieldPath (Py.encode (label args root (heap st) a)))
                        (matching p (heap st) results))
                 ps)).
Proof.
  intros Hlist. revert st. induction ps as [|p ps IH]; intros st.
  - simpl. unfold ret. by rewrite log_nil.
  - rewrite for_patterns_cons, for_results_list by done. cbn [fst snd].
    rewrite IH, !log_log. by simpl.
Qed.

Lemma debug_cons_listed (t : list event) :
  listed (LogDebug :: t) = listed t.
Proof. done. Qed.

Lemma debug_cons_chunks (t : list event) :
  emissions (LogDebug :: t) = emissions t /\
  warnings (LogDebug :: t) = warnings t.
Proof. done. Qed.

Lemma listed_app (t1 t2 : list event) :
  listed (t1 ++ t2) = listed t1 ++ listed t2.
Proof. apply omap_app. Qed.

Lemma listed_yields (f : addr -> bytes) (l : list addr) :
  listed (map (fun a => YieldPath (f a)) l) = map f l.
Proof. induction l as [|a l IH]; simpl; [done | by rewrite <- IH]. Qed.

Lemma emissions_yield_paths (f : addr -> bytes) (l : list addr) :
  emissions (map (fun a => YieldPath (f a)) l) = [] /\
  warnings (map (fun a => YieldPath (f a)) l) = [].
Proof. induction l as [|a l [IH1 IH2]]; simpl; [done | by rewrite IH1, IH2]. Qed.

(** The events of the second loop in list mode and what they list. *)
Lemma listing_events (meta_path : option string)
    (objects : list UnpackResult) (unpacked : list addr)
    (ps : list PathPattern) :
  (forall p, p ∈ ps -> p ∈ patterns args) ->
  let evs :=
    flat_map
      (fun p => LogDebug ::
         map (fun a => YieldPath (Py.encode
                (label args (if join args then default "" meta_path else "")
                       objects a)))
             (matching p objects (collected args objects unpacked))) ps in
  listed evs
    = flat_map
        (fun p => map (fun a => Py.encode
                                  (label args (default "" meta_path) objects a))
                      (matching p objects unpacked)) ps /\
  emissions evs = [] /\ warnings evs = [].
Proof.
  assert (Hlabel : forall a,
    label args (if join args then default "" meta_path else "") objects a
    = label args (default "" meta_path) objects a).
  { intros a. unfold label. by destruct (join args). }
  induction ps as [|p ps IH]; intros Hps; [done|].
  destruct IH as (IH1 & IH2 & IH3); [intros q Hq; apply Hps; by right|].
  cbn [flat_map]. cbv zeta.
  change (LogDebug :: ?l ++ ?r) with ([LogDebug] ++ l ++ r).
  rewrite !listed_app, !emissions_app, !warnings_app.
  rewrite matching_collected by (apply Hps; left).
  rewrite IH1, IH2, IH3, debug_cons_listed.
  destruct (debug_cons_chunks
              (map (fun a => YieldPath (Py.encode
                      (label args
                         (if join args then default "" meta_path else "")
                         objects a)))
                   (matching p objects unpacked))) as [-> ->].
  destruct (emissions_yield_paths
              (fun a => Py.encode
                 (label args (if join args then default "" meta_path else "")
                        objects a))
              (matching p objects unpacked)) as [-> ->].
  rewrite (listed_yields
             (fun a => Py.encode
                (label args (if join args then default "" meta_path else "")
                       objects a))).
  split; [|done]. simpl. f_equal. apply map_ext. intros a.
  by rewrite Hlabel.
Qed.

End Runs.

(** X6: in list mode a run emits, for each pattern in the order given and for
    each unpacked object in the order yielded whose path the pattern matches,
    the encoded label of that object: nothing is left out and nothing is
    emitted once only because an earlier pattern matched it.  It emits no
    chunk and no warning. *)
Theorem X6_list_mode_lists_every_match
    (args : PathExtractorArgs) (meta_path : option string)
    (objects : list UnpackResult) (unpacked : list addr)
    (Hlist : list_ args = true) :
  let st := PathExtractorUnit.run args meta_path objects unpacked in
  listed (trace st)
    = flat_map
        (fun p => map (fun a => Py.encode
                                  (label args (default "" meta_path) objects a))
                      (matching p objects unpacked))
        (patterns args) /\
  emissions (trace st) = [] /\
  warnings (trace st) = [].
Proof.
  intros st. unfold st, PathExtractorUnit.run.
  set (st0 := {| heap := objects; clock := O; trace := [] |}).
  rewrite process_passes, (collect_list args unpacked [] st0 Hlist).
  cbn [fst snd app]. rewrite for_patterns_list by done. cbn [snd].
  change (heap st0) with objects. simpl trace.
  exact (listing_events args meta_path objects unpacked (patterns args)
           (fun p Hp => Hp)).
Qed.

Lemma X6_list_mode_lists_every_match_witness :
  listed (trace (PathExtractorUnit.run
                   (PathExtractorUnit.init ["*.txt"; "*"] true false false)
                   None
                   [ {| path := "x.txt"; data := Callable (fun _ => []) |};
                     {| path := "y.bin"; data := Concrete [] |} ]
                   [O; 1%nat]))
  = [Py.encode "x.txt"; Py.encode "x.txt"; Py.encode "y.bin"].
Proof.
  exact (proj1 (X6_list_mode_lists_every_match
                  (PathExtractorUnit.init ["*.txt"; "*"] true false false)
                  None
                  [ {| path := "x.txt"; data := Callable (fun _ => []) |};
                    {| path := "y.bin"; data := Concrete [] |} ]
                  [O; 1%nat] eq_refl)).
Defined.

Section RunsOutsideListMode.

Variables (args : PathExtractorArgs) (meta_path : option string).
Variables (objects : list UnpackResult) (unpacked : list addr).

Hypothesis Hlist : list_ args = false.

Let st : state := PathExtractorUnit.run args meta_path objects unpacked.
Let root : string := if join args then default "" meta_path else "".

(** Outside list mode a run is the producer calls of the first loop followed
    by what the second loop emits for the collected objects, which by then
    hold their bytes. *)
Lemma run_replay :
  (forall a, path_at (heap st) a = path_at objects a) /\
  Forall (settled (heap st)) (collected args objects unpacked) /\
  (forall a, settled objects a -> bytes_at (heap st) a = bytes_at objects a) /\
  exists invs,
    trace st
      = invs ++ (replay_patterns args root (patterns args)
                   (map (item_at (heap st)) (collected args objects unpacked))
                   ∅).2 /\
    Forall is_invoke invs /\
    forall a, invocations a invs =
      if deferred objects a
         && bool_decide (a ∈ collected args objects unpacked)
      then 1%nat else O.
Proof.
  unfold st, PathExtractorUnit.run.
  set (st0 := {| heap := objects; clock := O; trace := [] |}).
  rewrite process_passes. fold root.
  destruct (collect_spec args unpacked [] st0 Hlist)
    as (Hres & Hpath & Hkeep & Hset & _ & invs & Htr & Hinvs & Hcount).
  destruct (PathExtractorUnit.collect args unpacked [] st0) as [res st1].
  cbn [fst snd] in *. change (heap st0) with objects in *.
  simpl in Hres. subst res.
  assert (Hall : Forall (settled (heap st1)) (collected args objects unpacked))
    by (by apply Forall_forall).
  rewrite (for_patterns_replay args root Hlist _ _ ∅ st1 Hall). cbn [snd].
  split; [done|]. split; [done|]. split; [intros a Ha; by apply Hkeep|].
  exists invs. simpl. by rewrite Htr.
Qed.

End RunsOutsideListMode.

Section ReplayProperties.

Variables (args : PathExtractorArgs) (root : string).

Let lab (s : string) : string :=
  if join args then Py.path_join root s else s.

Lemma replay_quiet (a : addr) (ps : list PathPattern)
    (items : list (string * bytes)) (paths : gmap string (gset Z)) :
  invocations a (replay_patterns args root ps items paths).2 = O.
Proof.
  apply (replay_patterns_inv args root
           (fun _ evs => invocations a evs = O) ps items) with (evs := []).
  - intros _ evs Hevs. by rewrite invocations_app, Hevs.
  - intros p s d paths' evs _ _ Hevs.
    by rewrite invocations_app, Hevs, turn_quiet.
  - done.
Qed.

(** The chunks a pattern can emit, in order: one for each item it matches. *)
Lemma replay_results_sublist (p : PathPattern)
    (items : list (string * bytes)) (paths : gmap string (gset Z)) :
  emissions (replay_results args root p items paths).2
    `sublist_of`
  map (fun it => (it.2, lab it.1))
      (filter (fun it => PathPattern.check p it.1 = true) items).
Proof.
  revert paths. induction items as [|[s d] items IH]; intros paths; simpl.
  - constructor.
  - pose proof (turn_emissions args root p paths s d) as Hturn.
    destruct (turn args root p paths s d) as [paths1 evs1].
    specialize (IH paths1).
    destruct (replay_results args root p items paths1) as [paths2 evs2].
    simpl in *. rewrite emissions_app, Hturn.
    destruct (PathPattern.check p s) eqn:Hcheck; simpl.
    + rewrite filter_cons_True by done. simpl.
      destruct (negb _); simpl; [by apply sublist_skip | by apply sublist_cons].
    + rewrite filter_cons_False; [done|]. simpl. by rewrite Hcheck.
Qed.

Lemma replay_patterns_sublist (ps : list PathPattern)
    (items : list (string * bytes)) (paths : gmap string (gset Z)) :
  emissions (replay_patterns args root ps items paths).2
    `sublist_of`
  flat_map (fun p => map (fun it => (it.2, lab it.1))
                         (filter (fun it => PathPattern.check p it.1 = true)
                                 items))
           ps.
Proof.
  revert paths. induction ps as [|p ps IH]; intros paths; simpl.
  - constructor.
  - pose proof (replay_results_sublist p items paths) as H1.
    destruct (replay_results args root p items paths) as [paths1 evs1].
    specialize (IH paths1).
    destruct (replay_patterns args root ps items paths1) as [paths2 evs2].
    cbn [fst snd] in *.
    destruct (debug_cons_chunks (evs1 ++ evs2)) as [-> _].
    rewrite emissions_app. by apply sublist_app.
Qed.

(** After the two loops the ledger holds what it held and the checksum of
    every item under its path, if some pattern matches the path. *)
Lemma replay_results_ledger (p : PathPattern)
    (items : list (string * bytes)) (paths : gmap string (gset Z))
    (s : string) (c : Z) :
  in_ledger (replay_results args root p items paths).1 s c = true <->
  in_ledger paths s c = true \/
  exists d, (s, d) ∈ items /\ PathPattern.check p s = true /\ c = Py.adler32 d.
Proof.
  revert paths. induction items as [|[s0 d0] items IH]; intros paths; simpl.
  - split; [by left|]. intros [H|(d & Hin & _)]; [done | inversion Hin].
  - pose proof (turn_ledger args root p paths s0 s d0 c) as Hturn.
    destruct (turn args root p paths s0 d0) as [paths1 evs1].
    specialize (IH paths1).
    destruct (replay_results args root p items paths1) as [paths2 evs2].
    simpl in *. rewrite IH, Hturn. split.
    + intros [[H|(Hc & -> & ->)]|(d & Hin & Hc & ->)].
      * by left.
      * right. exists d0. split; [left | done].
      * right. exists d. split; [by right | done].
    + intros [H|(d & Hin & Hc & ->)]; [by left; left|].
      apply elem_of_cons in Hin as [[= -> ->]|Hin].
      * left. by right.
      * right. by exists d.
Qed.

Lemma replay_patterns_ledger (ps : list PathPattern)
    (items : list (string * bytes)) (paths : gmap string (gset Z))
    (s : string) (c : Z) :
  in_ledger (replay_patterns args root ps items paths).1 s c = true <->
  in_ledger paths s c = true \/
  exists p d, p ∈ ps /\ (s, d) ∈ items /\
              PathPattern.check p s = true /\ c = Py.adler32 d.
Proof.
  revert paths. induction ps as [|p ps IH]; intros paths; simpl.
  - split; [by left|]. intros [H|(p & d & Hin & _)]; [done | inversion Hin].
  - pose proof (replay_results_ledger p items paths s c) as H1.
    destruct (replay_results args root p items paths) as [paths1 evs1].
    specialize (IH paths1).
    destruct (replay_patterns args root ps items paths1) as [paths2 evs2].
    simpl in *. rewrite IH, H1. split.
    + intros [[H|(d & Hin & Hc & ->)]|(q & d & Hq & Hin & Hc & ->)].
      * by left.
      * right. exists p, d. split; [left | done].
      * right. exists q, d. split; [by right | done].
    + intros [H|(q & d & Hq & Hin & Hc & ->)]; [by left; left|].
      apply elem_of_cons in Hq as [->|Hq].
      * left. right. by exists d.
      * right. by exists q, d.
Qed.

(** Every checksum the ledger gains is the checksum of an emitted chunk. *)
Lemma replay_ledger_emitted (ps : list PathPattern)
    (items : list (string * bytes)) (s : string) (c : Z) :
  in_ledger (replay_patterns args root ps items ∅).1 s c = true ->
  exists d, (d, lab s) ∈ emissions (replay_patterns args root ps items ∅).2 /\
            Py.adler32 d = c.
Proof.
  revert s c.
  apply (replay_patterns_inv args root
           (fun paths evs => forall s c, in_ledger paths s c = true ->
              exists d, (d, lab s) ∈ emissions evs /\ Py.adler32 d = c)
           ps items) with (evs := []).
  - intros paths evs H s c Hin. destruct (H s c Hin) as (d & Hd & Hc).
    exists d. split; [|done]. rewrite emissions_app. apply elem_of_app.
    by left.
  - intros p s0 d0 paths evs _ _ H s c Hin.
    rewrite emissions_app, turn_emissions.
    apply turn_ledger in Hin as [Hin|(Hcheck & -> & ->)].
    + destruct (H s c Hin) as (d & Hd & Hc). exists d. split; [|done].
      apply elem_of_app. by left.
    + rewrite Hcheck. simpl.
      destruct (in_ledger paths s0 (Py.adler32 d0)) eqn:Hold.
      * destruct (H s0 _ Hold) as (d & Hd & Hc). exists d. split; [|done].
        apply elem_of_app. by left.
      * exists d0. split; [|done]. apply elem_of_app. right. left.
  - intros s c Hin. unfold in_ledger in Hin. by rewrite lookup_empty in Hin.
Qed.

End ReplayProperties.

Section RunsOutsideListModeMore.

Variables (args : PathExtractorArgs) (meta_path : option string).
Variables (objects : list UnpackResult) (unpacked : list addr).

Hypothesis Hlist : list_ args = false.

Let st : state := PathExtractorUnit.run args meta_path objects unpacked.
Let root : string := if join args then default "" meta_path else "".
Let items : list (string * bytes) :=
  map (item_at (heap st)) (collected args objects unpacked).

Lemma invokes_emit_nothing (invs : list event) :
  Forall is_invoke invs -> emissions invs = [] /\ warnings invs = [].
Proof.
  induction 1 as [|e invs He _ [IH1 IH2]]; [done|].
  by destruct e.
Qed.

(** The chunks and warnings of a run are those of its second loop. *)
Lemma run_emissions :
  emissions (trace st)
    = emissions (replay_patterns args root (patterns args) items ∅).2 /\
  warnings (trace st)
    = warnings (replay_patterns args root (patterns args) items ∅).2.
Proof.
  destruct (run_replay args meta_path objects unpacked Hlist)
    as (_ & _ & _ & invs & Htr & Hinvs & _).
  fold st root items in Htr. rewrite Htr, emissions_app, warnings_app.
  by destruct (invokes_emit_nothing invs Hinvs) as [-> ->].
Qed.

Lemma label_root (a : addr) :
  label args root objects a = label args (default "" meta_path) objects a.
Proof. unfold label, root. by destruct (join args). Qed.

(** The chunks the items matched by a pattern of the unit stand for. *)
Lemma chunks_of_items (p : PathPattern) :
  p ∈ patterns args ->
  map (fun it => (it.2, if join args then Py.path_join root it.1 else it.1))
      (filter (fun it => PathPattern.check p it.1 = true) items)
  = map (fun a => (bytes_at (heap st) a,
                   label args (default "" meta_path) objects a))
        (matching p objects unpacked).
Proof.
  intros Hp.
  destruct (run_replay args meta_path objects unpacked Hlist) as (Hpath & _).
  fold st in Hpath.
  rewrite <- (matching_collected args p objects unpacked Hp).
  unfold items. generalize (collected args objects unpacked) as res.
  induction res as [|a res IH]; [done|].
  simpl map at 2. unfold matching in *.
  destruct (PathPattern.check p (path_at objects a)) eqn:Hcheck.
  - rewrite filter_cons_True by (simpl; by rewrite Hpath).
    rewrite (filter_cons_True _ a) by done. simpl. rewrite IH. f_equal.
    rewrite <- label_root. unfold label. by rewrite Hpath.
  - rewrite filter_cons_False by (simpl; by rewrite Hpath, Hcheck).
    rewrite (filter_cons_False _ a) by (by rewrite Hcheck). apply IH.
Qed.

(** The chunks of a run are, in order, among the chunks of the objects the
    patterns match, pattern by pattern. *)
Lemma run_emissions_sublist :
  emissions (trace st)
    `sublist_of`
  flat_map (fun p => map (fun a => (bytes_at (heap st) a,
                                    label args (default "" meta_path) objects a))
                         (matching p objects unpacked))
           (patterns args).
Proof.
  destruct run_emissions as [-> _].
  rewrite <- (flat_map_ext_in _ _ _ chunks_of_items).
  apply replay_patterns_sublist.
Qed.

(** Every object a pattern matches has a chunk with its label and its
    checksum among the chunks of the run. *)
Lemma run_match_emitted (a : addr) (p : PathPattern) :
  a ∈ unpacked -> p ∈ patterns args ->
  PathPattern.check p (path_at objects a) = true ->
  exists d, (d, label args (default "" meta_path) objects a)
              ∈ emissions (trace st) /\
            Py.adler32 d = Py.adler32 (bytes_at (heap st) a).
Proof.
  intros Ha Hp Hcheck.
  destruct (run_replay args meta_path objects unpacked Hlist) as (Hpath & _).
  fold st in Hpath. destruct run_emissions as [-> _].
  rewrite <- label_root. unfold label.
  apply (replay_ledger_emitted args root).
  apply replay_patterns_ledger. right.
  exists p, (bytes_at (heap st) a). split; [done|]. split; [|done].
  unfold items. apply list_elem_of_fmap. exists a. split.
  - unfold item_at. by rewrite Hpath.
  - unfold collected. apply list_elem_of_filter. split; [|done].
    unfold PathExtractorUnit._check_path. apply existsb_true. by exists p.
Qed.

End RunsOutsideListModeMore.

(** ** Labels in join mode *)

Section JoinMode.

Variables (args : PathExtractorArgs) (root : string).

Hypothesis Hjoin : join args = true.

(** [get_data] returns the bytes it leaves in the object. *)
Lemma get_data_returns (st : state) (a : addr) :
  get_data a st
    = (bytes_at (heap (get_data a st).2) a, (get_data a st).2).
Proof.
  destruct (heap st !! a) as [r|] eqn:Hr.
  - destruct (get_data_effect st a r Hr) as (b & n & -> & _). simpl.
    unfold bytes_at.
    by rewrite list_lookup_insert_eq by (by eapply lookup_lt_Some).
  - rewrite (get_data_dangling st a Hr). simpl. unfold bytes_at.
    by rewrite Hr.
Qed.

(** Outside list mode a turn of the inner loop is the turn on the store its
    first [get_data] leaves. *)
Lemma visit_after_get_data (p : PathPattern) (paths : gmap string (gset Z))
    (a : addr) (st : state) :
  list_ args = false ->
  PathPattern.check p (path_at (heap st) a) = true ->
  PathExtractorUnit.visit args root p paths a st
    = PathExtractorUnit.visit args root p paths a (get_data a st).2.
Proof.
  intros Hlist Hcheck.
  destruct (get_data_facts st a) as (Hpath & Hset & _).
  pose proof (get_data_returns st a) as Hget.
  set (st' := (get_data a st).2) in *.
  unfold PathExtractorUnit.visit, bind, attr_path. cbv beta iota.
  rewrite Hpath, Hcheck, Hlist. cbn [negb]. cbv beta iota.
  by rewrite Hget, (get_data_settled st' a Hset).
Qed.

Lemma turn_joined (p : PathPattern) (paths : gmap string (gset Z))
    (s : string) (d : bytes) :
  Forall (joined_event root s d) (turn args root p paths s d).2.
Proof.
  unfold turn. rewrite Hjoin.
  assert (Hl : joined_label root s (Py.path_join root s))
    by apply joined_label_join.
  destruct (PathPattern.check p s); simpl; [|done].
  destruct (paths !! s) as [seen|]; [destruct (bool_decide _)|]; simpl;
    repeat (apply Forall_cons; split); try apply Forall_nil; simpl;
    try done; by split.
Qed.

(** One turn of the inner loop speaks of its own object only: what it hands
    over carries the bytes that object holds and the joined label of that
    object's path. *)
Lemma visit_joined (p : PathPattern) (paths : gmap string (gset Z))
    (a : addr) (st : state) :
  let st1 := (PathExtractorUnit.visit args root p paths a st).2 in
  exists evs,
    trace st1 = trace st ++ evs /\
    Forall (joined_event root (path_at (heap st) a) (bytes_at (heap st1) a))
           evs.
Proof.
  intros st1. unfold st1. clear st1.
  assert (Hl : joined_label root (path_at (heap st) a)
                 (Py.path_join root (path_at (heap st) a)))
    by apply joined_label_join.
  destruct (PathPattern.check p (path_at (heap st) a)) eqn:Hcheck.
  - destruct (list_ args) eqn:Hlist.
    + rewrite (visit_list args root p paths st a Hlist Hcheck), Hjoin.
      eexists. split; [done|]. constructor; [|done]. by eexists.
    + rewrite (visit_after_get_data p paths a st Hlist Hcheck).
      destruct (get_data_facts st a) as (Hpath & Hset & _ & _ & Htr).
      rewrite (visit_settled args root Hlist p paths _ a Hset). cbn [snd].
      exists ((if deferred (heap st) a then [Invoke a] else [])
              ++ (turn args root p paths
                    (path_at (heap (get_data a st).2) a)
                    (bytes_at (heap (get_data a st).2) a)).2).
      split; [simpl; by rewrite Htr, app_assoc|].
      apply Forall_app. split; [by destruct (deferred _ _); repeat constructor|].
      rewrite <- (Hpath a). apply turn_joined.
  - rewrite (visit_miss args root p paths st a Hcheck).
    exists []. by rewrite app_nil_r.
Qed.

End JoinMode.

(** C10: in join mode whatever a run hands over for an item is labelled with
    the path join of the root and that item's own path, and this label is the
    item's path itself when the path is absolute (the root is dropped) and
    when the root is empty.  One turn of the inner loop hands over only the
    bytes and the joined label of the object it visits; over a whole run the
    chunks are, in order, among the (bytes, joined label) pairs of the
    objects the patterns match, and in list mode the listing is exactly the
    encoded joined labels of those objects. *)
Theorem C10_join_drops_root_for_absolute_paths
    (args : PathExtractorArgs) (meta_path : option string)
    (objects : list UnpackResult) (unpacked : list addr)
    (Hjoin : join args = true) :
  let root := default "" meta_path in
  let st := PathExtractorUnit.run args meta_path objects unpacked in
  (forall p paths a st0,
     let st1 := (PathExtractorUnit.visit args root p paths a st0).2 in
     exists evs,
       trace st1 = trace st0 ++ evs /\
       Forall (joined_event root (path_at (heap st0) a)
                            (bytes_at (heap st1) a)) evs) /\
  (list_ args = false ->
     emissions (trace st)
       `sublist_of`
     flat_map (fun p => map (fun a => (bytes_at (heap st) a,
                                       Py.path_join root (path_at objects a)))
                            (matching p objects unpacked))
              (patterns args) /\
     forall d l,
       (d, l) ∈ emissions (trace st) ->
       exists p a,
         p ∈ patterns args /\ a ∈ unpacked /\
         PathPattern.check p (path_at objects a) = true /\
         d = bytes_at (heap st) a /\
         joined_label root (path_at objects a) l) /\
  (list_ args = true ->
     listed (trace st)
       = flat_map (fun p => map (fun a => Py.encode
                                   (Py.path_join root (path_at objects a)))
                                (matching p objects unpacked))
                  (patterns args) /\
     forall c,
       c ∈ listed (trace st) ->
       exists p a l,
         p ∈ patterns args /\ a ∈ unpacked /\
         PathPattern.check p (path_at objects a) = true /\
         c = Py.encode l /\
         joined_label root (path_at objects a) l).
Proof.
  intros root st. split; [|split].
  - intros p paths a st0. by apply visit_joined.
  - intros Hlist.
    pose proof (run_emissions_sublist args meta_path objects unpacked Hlist)
      as Hsub.
    fold st root in Hsub. unfold label in Hsub. rewrite Hjoin in Hsub.
    split; [exact Hsub|].
    intros d l Hin. apply (elem_of_sublist _ _ _ Hin) in Hsub.
    apply list_elem_of_In, in_flat_map in Hsub as (p & Hp & Hch).
    apply list_elem_of_In, list_elem_of_fmap in Hch as (a & [= -> ->] & Ha).
    unfold matching in Ha. apply list_elem_of_filter in Ha as [Hcheck Ha].
    exists p, a. rewrite list_elem_of_In.
    repeat (split; [done|]). apply joined_label_join.
  - intros Hlist.
    assert (Hlisted : listed (trace st)
      = flat_map (fun p => map (fun a => Py.encode
                                  (Py.path_join root (path_at objects a)))
                               (matching p objects unpacked))
                 (patterns args)).
    { unfold st, PathExtractorUnit.run.
      set (st0 := {| heap := objects; clock := O; trace := [] |}).
      rewrite process_passes, (collect_list args unpacked [] st0 Hlist).
      cbn [fst snd app]. rewrite for_patterns_list by done. cbn [snd].
      change (heap st0) with objects. simpl trace.
      destruct (listing_events args meta_path objects unpacked (patterns args)
                  (fun p Hp => Hp)) as [Hl _].
      unfold label in Hl |- *. rewrite Hjoin in Hl |- *. exact Hl. }
    split; [exact Hlisted|].
    intros c Hin. rewrite Hlisted in Hin.
    apply list_elem_of_In, in_flat_map in Hin as (p & Hp & Hch).
    apply list_elem_of_In, list_elem_of_fmap in Hch as (a & -> & Ha).
    unfold matching in Ha. apply list_elem_of_filter in Ha as [Hcheck Ha].
    exists p, a, (Py.path_join root (path_at objects a)).
    rewrite list_elem_of_In.
    repeat (split; [done|]). apply joined_label_join.
Qed.

Lemma C10_join_drops_root_for_absolute_paths_witness :
  let args := PathExtractorUnit.init ["*"] false true false in
  let objects := [ {| path := "/etc/x"; data := Callable (fun _ => ["X"]%byte) |};
                   {| path := "y"; data := Concrete ["Y"]%byte |} ] in
  let st := PathExtractorUnit.run args (Some "root") objects [O; 1%nat] in
  join args = true /\
  emissions (trace st) = [(["X"]%byte, "/etc/x"); (["Y"]%byte, "root/y")] /\
  exists p a,
    p ∈ patterns args /\ a ∈ [O; 1%nat] /\
    PathPattern.check p (path_at objects a) = true /\
    ["X"]%byte = bytes_at (heap st) a /\
    joined_label "root" (path_at objects a) "/etc/x".
Proof.
  intros args objects st. split; [reflexivity|]. split; [reflexivity|].
  exact (proj2 (proj1 (proj2 (C10_join_drops_root_for_absolute_paths
                                args (Some "root") objects [O; 1%nat]
                                eq_refl))
                      eq_refl)
               ["X"]%byte "/etc/x" (list_elem_of_here _ _)).
Defined.

(** X7: outside list mode a run calls the producer of an object exactly once
    if the object is unpacked, passes some pattern and holds a producer, and
    never otherwise; afterwards no wanted object holds a producer, and an
    object that held bytes holds the same bytes. *)
Theorem X7_wanted_producers_called_once
    (args : PathExtractorArgs) (meta_path : option string)
    (objects : list UnpackResult) (unpacked : list addr)
    (Hlist : list_ args = false) :
  let st := PathExtractorUnit.run args meta_path objects unpacked in
  (forall a,
     invocations a (trace st) =
       if deferred objects a && bool_decide (a ∈ unpacked)
          && PathExtractorUnit._check_path args (path_at objects a)
       then 1%nat else O) /\
  (forall a,
     a ∈ unpacked ->
     PathExtractorUnit._check_path args (path_at objects a) = true ->
     deferred (heap st) a = false) /\
  (forall a,
     deferred objects a = false ->
     bytes_at (heap st) a = bytes_at objects a).
Proof.
  intros st.
  destruct (run_replay args meta_path objects unpacked Hlist)
    as (_ & Hset & Hkeep & invs & Htr & _ & Hcount).
  fold st in Hset, Hkeep, Htr.
  assert (Hin : forall a,
    a ∈ collected args objects unpacked <->
    a ∈ unpacked /\
    PathExtractorUnit._check_path args (path_at objects a) = true).
  { intros a. unfold collected. rewrite list_elem_of_filter. tauto. }
  split; [|split].
  - intros a. rewrite Htr, invocations_app, replay_quiet, Hcount, Nat.add_0_r.
    assert (bool_decide (a ∈ collected args objects unpacked)
            = bool_decide (a ∈ unpacked)
              && PathExtractorUnit._check_path args (path_at objects a)) as ->.
    { destruct (PathExtractorUnit._check_path args (path_at objects a)) eqn:Hc.
      - rewrite andb_true_r. apply bool_decide_ext. rewrite Hin. tauto.
      - rewrite andb_false_r. apply bool_decide_eq_false_2. rewrite Hin.
        intros [_ H]. congruence. }
    by rewrite andb_assoc.
  - intros a Ha Hwant. apply deferred_settled.
    rewrite Forall_forall in Hset. apply Hset, Hin. done.
  - intros a Ha. apply Hkeep. unfold deferred, settled in *.
    destruct (objects !! a) as [r|]; [|done]. by destruct (data r).
Qed.

Lemma X7_wanted_producers_called_once_witness :
  let objects := [ {| path := "a.txt"; data := Callable (fun _ => ["A"]%byte) |};
                   {| path := "b.bin"; data := Callable (fun _ => ["B"]%byte) |} ] in
  let st := PathExtractorUnit.run
              (PathExtractorUnit.init ["*.txt"; "a*"] false false false) None
              objects [O; 1%nat; O] in
  invocations O (trace st) = 1%nat /\ invocations 1%nat (trace st) = O.
Proof.
  intros objects st.
  pose proof (proj1 (X7_wanted_producers_called_once
    (PathExtractorUnit.init ["*.txt"; "a*"] false false false) None
    objects [O; 1%nat; O] eq_refl)) as H.
  split; [exact (H O) | exact (H 1%nat)].
Defined.

(** X8: outside list mode the chunks a run emits are, in order, chunks of
    the listing that goes pattern by pattern, in the order given, over the
    unpacked objects each pattern matches, in the order yielded: every chunk
    carries the bytes held by an unpacked object whose path a pattern
    matches, under the label of that object. *)
Theorem X8_chunks_follow_pattern_order
    (args : PathExtractorArgs) (meta_path : option string)
    (objects : list UnpackResult) (unpacked : list addr)
    (Hlist : list_ args = false) :
  let st := PathExtractorUnit.run args meta_path objects unpacked in
  emissions (trace st)
    `sublist_of`
  flat_map (fun p => map (fun a => (bytes_at (heap st) a,
                                    label args (default "" meta_path) objects a))
                         (matching p objects unpacked))
           (patterns args) /\
  (forall d l,
     (d, l) ∈ emissions (trace st) ->
     exists p a,
       p ∈ patterns args /\ a ∈ unpacked /\
       PathPattern.check p (path_at objects a) = true /\
       d = bytes_at (heap st) a /\
       l = label args (default "" meta_path) objects a).
Proof.
  intros st.
  pose proof (run_emissions_sublist args meta_path objects unpacked Hlist)
    as Hsub.
  fold st in Hsub. split; [done|].
  intros d l Hin. apply (elem_of_sublist _ _ _ Hin) in Hsub.
  apply list_elem_of_In, in_flat_map in Hsub as (p & Hp & Hch).
  apply list_elem_of_In, list_elem_of_fmap in Hch as (a & [= -> ->] & Ha).
  unfold matching in Ha. apply list_elem_of_filter in Ha as [Hcheck Ha].
  exists p, a. by rewrite list_elem_of_In.
Qed.

Lemma X8_chunks_follow_pattern_order_witness :
  let objects := [ {| path := "b.txt"; data := Concrete ["B"]%byte |};
                   {| path := "a.bin"; data := Concrete ["A"]%byte |} ] in
  let st := PathExtractorUnit.run
              (PathExtractorUnit.init ["*.bin"; "*"] false false false) None
              objects [O; 1%nat] in
  emissions (trace st) = [(["A"]%byte, "a.bin"); (["B"]%byte, "b.txt")] /\
  emissions (trace st)
    `sublist_of` [(["A"]%byte, "a.bin"); (["B"]%byte, "b.txt");
                  (["A"]%byte, "a.bin")].
Proof.
  intros objects st. split; [reflexivity|].
  exact (proj1 (X8_chunks_follow_pattern_order
                  (PathExtractorUnit.init ["*.bin"; "*"] false false false)
                  None objects [O; 1%nat] eq_refl)).
Defined.

(** X9: outside list mode and without join, a run never emits two chunks
    with the same label and the same checksum. *)
Theorem X9_no_chunk_emitted_twice
    (args : PathExtractorArgs) (meta_path : option string)
    (objects : list UnpackResult) (unpacked : list addr)
    (Hlist : list_ args = false)
    (Hjoin : join args = false) :
  NoDup (map chunk_key
             (emissions
                (trace (PathExtractorUnit.run args meta_path objects unpacked)))).
Proof.
  destruct (run_emissions args meta_path objects unpacked Hlist) as [-> _].
  set (root := if join args then default "" meta_path else "").
  generalize (map (item_at (heap (PathExtractorUnit.run args meta_path objects
                                    unpacked)))
                  (collected args objects unpacked)) as items.
  intros items.
  set (I := fun (paths : gmap string (gset Z)) (evs : list event) =>
       NoDup (map chunk_key (emissions evs)) /\
       forall ch, ch ∈ emissions evs ->
                  in_ledger paths ch.2 (Py.adler32 ch.1) = true).
  enough (I (replay_patterns args root (patterns args) items ∅).1
            ([] ++ (replay_patterns args root (patterns args) items ∅).2))
    as [Hnd _] by exact Hnd.
  apply replay_patterns_inv; unfold I.
  - intros paths evs [Hnd Hled]. rewrite emissions_app. simpl.
    by rewrite app_nil_r.
  - intros p s d paths evs _ _ [Hnd Hled].
    rewrite emissions_app, turn_emissions, Hjoin.
    destruct (PathPattern.check p s && negb (in_ledger paths s (Py.adler32 d)))
      eqn:Hcond.
    + apply andb_true_iff in Hcond as [Hcheck Hnew].
      apply negb_true_iff in Hnew. split.
      * rewrite map_app. apply NoDup_app. split; [done|]. split.
        -- intros k Hk Hk'. apply list_elem_of_singleton in Hk' as ->.
           apply list_elem_of_fmap in Hk as (ch & Hkey & Hch).
           apply Hled in Hch. unfold chunk_key in Hkey.
           injection Hkey as H1 H2. rewrite <- H1, <- H2 in Hch. congruence.
        -- apply NoDup_singleton.
      * intros ch Hch. apply turn_ledger.
        apply elem_of_app in Hch as [Hch|Hch]; [left; by apply Hled|].
        apply list_elem_of_singleton in Hch as ->. by right.
    + rewrite app_nil_r. split; [done|].
      intros ch Hch. apply turn_ledger. left. by apply Hled.
  - split; [constructor|]. intros ch Hch. inversion Hch.
Qed.

Lemma X9_no_chunk_emitted_twice_witness :
  NoDup (map chunk_key
             (emissions
                (trace (PathExtractorUnit.run
                          (PathExtractorUnit.init ["*"; "*.txt"] false false false)
                          None
                          [ {| path := "x.txt"; data := Concrete ["A"]%byte |};
                            {| path := "x.txt"; data := Concrete ["A"]%byte |} ]
                          [O; 1%nat])))).
Proof.
  exact (X9_no_chunk_emitted_twice
           (PathExtractorUnit.init ["*"; "*.txt"] false false false) None
           [ {| path := "x.txt"; data := Concrete ["A"]%byte |};
             {| path := "x.txt"; data := Concrete ["A"]%byte |} ]
           [O; 1%nat] eq_refl eq_refl).
Defined.

(** X10: outside list mode, for every unpacked object whose path some
    pattern matches, a run emits a chunk under the label of that object with
    the checksum of its bytes: a wanted object is left out only when a chunk
    with its label and checksum is emitted anyway. *)
Theorem X10_every_match_is_emitted
    (args : PathExtractorArgs) (meta_path : option string)
    (objects : list UnpackResult) (unpacked : list addr)
    (a : addr) (p : PathPattern)
    (Hlist : list_ args = false)
    (Ha : a ∈ unpacked)
    (Hp : p ∈ patterns args)
    (Hcheck : PathPattern.check p (path_at objects a) = true) :
  let st := PathExtractorUnit.run args meta_path objects unpacked in
  exists d,
    (d, label args (default "" meta_path) objects a) ∈ emissions (trace st) /\
    Py.adler32 d = Py.adler32 (bytes_at (heap st) a) /\
    path_at (heap st) a = path_at objects a /\
    deferred (heap st) a = false.
Proof.
  intros st.
  destruct (run_match_emitted args meta_path objects unpacked Hlist a p
              Ha Hp Hcheck) as (d & Hd & Hc).
  destruct (run_replay args meta_path objects unpacked Hlist)
    as (Hpath & Hset & _).
  exists d. split; [done|]. split; [done|]. split; [apply Hpath|].
  apply deferred_settled. rewrite Forall_forall in Hset. apply Hset.
  unfold collected. apply list_elem_of_filter. split; [|done].
  unfold PathExtractorUnit._check_path. apply existsb_true. by exists p.
Qed.

Lemma X10_every_match_is_emitted_witness :
  exists d,
    (d, "docs/x.txt")
      ∈ emissions
          (trace (PathExtractorUnit.run
                    (PathExtractorUnit.init ["docs/*"] false false false) None
                    [ {| path := "docs/x.txt";
                         data := Callable (fun _ => ["A"]%byte) |} ]
                    [O])) /\
    Py.adler32 d = Py.adler32 ["A"]%byte.
Proof.
  destruct (X10_every_match_is_emitted
              (PathExtractorUnit.init ["docs/*"] false false false) None
              [ {| path := "docs/x.txt";
                   data := Callable (fun _ => ["A"]%byte) |} ]
              [O] O (PathPattern.wildcard "docs/*") eq_refl
              ltac:(left) ltac:(left) eq_refl)
    as (d & Hd & Hc & _).
  exists d. split; [exact Hd | exact Hc].
Defined.

Section Listing.

Lemma encode_inj (s1 s2 : string) : Py.encode s1 = Py.encode s2 -> s1 = s2.
Proof.
  unfold Py.encode. intros H.
  by rewrite <- (string_of_list_byte_of_string s1), H,
             string_of_list_byte_of_string.
Qed.

(** The size of the ledger's key set after a turn. *)
Lemma turn_dom (args : PathExtractorArgs) (root : string) (p : PathPattern)
    (paths : gmap string (gset Z)) (s : string) (d : bytes) :
  dom (turn args root p paths s d).1 =
    if PathPattern.check p s && negb (in_ledger paths s (Py.adler32 d))
    then {[s]} ∪ dom paths else dom paths.
Proof.
  unfold turn, in_ledger. destruct (PathPattern.check p s); cbn [negb andb];
    [|done].
  destruct (paths !! s) as [cs|].
  - destruct (bool_decide _); cbn [negb fst]; [done|].
    unfold PathExtractorUnit.ledger_add. apply dom_insert_L.
  - cbn [negb fst]. unfold PathExtractorUnit.ledger_add. apply dom_insert_L.
Qed.

End Listing.

(** X11: the labels under which a run outside list mode emits at least one
    chunk are the labels the same unit lists in list mode, over the same
    unpacked objects. *)
Theorem X11_listing_names_what_is_emitted
    (args : PathExtractorArgs) (meta_path : option string)
    (objects : list UnpackResult) (unpacked : list addr)
    (Hlist : list_ args = false) :
  let listing :=
    {| patterns := patterns args; list_ := true; join := join args |} in
  forall l,
    (exists d, (d, l) ∈ emissions
                 (trace (PathExtractorUnit.run args meta_path objects unpacked)))
    <->
    Py.encode l ∈ listed
      (trace (PathExtractorUnit.run listing meta_path objects unpacked)).
Proof.
  intros listing l.
  assert (Hlisted :
    listed (trace (PathExtractorUnit.run listing meta_path objects unpacked))
    = flat_map
        (fun p => map (fun a => Py.encode
                                  (label args (default "" meta_path) objects a))
                      (matching p objects unpacked))
        (patterns args)).
  { unfold PathExtractorUnit.run.
    set (st0 := {| heap := objects; clock := O; trace := [] |}).
    rewrite process_passes, (collect_list listing unpacked [] st0 eq_refl).
    cbn [fst snd app]. rewrite for_patterns_list by done. cbn [snd].
    exact (proj1 (listing_events listing meta_path objects unpacked
                    (patterns args) (fun p Hp => Hp))). }
  rewrite Hlisted. split.
  - intros (d & Hd).
    pose proof (run_emissions_sublist args meta_path objects unpacked Hlist)
      as Hsub.
    apply (elem_of_sublist _ _ _ Hd) in Hsub.
    apply list_elem_of_In, in_flat_map in Hsub as (p & Hp & Hch).
    apply list_elem_of_In, list_elem_of_fmap in Hch as (a & [= -> ->] & Ha).
    apply list_elem_of_In, in_flat_map. exists p. split; [done|].
    apply list_elem_of_In, list_elem_of_fmap. by exists a.
  - intros Hl.
    apply list_elem_of_In, in_flat_map in Hl as (p & Hp & Hch).
    apply list_elem_of_In, list_elem_of_fmap in Hch as (a & Henc & Ha).
    apply encode_inj in Henc as ->.
    unfold matching in Ha. apply list_elem_of_filter in Ha as [Hcheck Ha].
    destruct (run_match_emitted args meta_path objects unpacked Hlist a p
                Ha ltac:(by apply list_elem_of_In) Hcheck) as (d & Hd & _).
    by exists d.
Qed.

Lemma X11_listing_names_what_is_emitted_witness :
  Py.encode "x.txt"
    ∈ listed
        (trace (PathExtractorUnit.run
                  {| patterns := patterns
                       (PathExtractorUnit.init ["*.txt"] false false false);
                     list_ := true;
                     join := false |}
                  None
                  [ {| path := "x.txt"; data := Concrete ["A"]%byte |} ]
                  [O])).
Proof.
  apply (X11_listing_names_what_is_emitted
           (PathExtractorUnit.init ["*.txt"] false false false) None
           [ {| path := "x.txt"; data := Concrete ["A"]%byte |} ] [O] eq_refl).
  exists ["A"]%byte. left.
Defined.

(** X12: outside list mode and without join, the number of chunks a run
    emits is the number of its duplicate-path warnings plus the number of
    distinct labels it emits: each chunk after the first under a label
    comes with exactly one warning. *)
Theorem X12_one_warning_per_conflicting_chunk
    (args : PathExtractorArgs) (meta_path : option string)
    (objects : list UnpackResult) (unpacked : list addr)
    (Hlist : list_ args = false)
    (Hjoin : join args = false) :
  let tr := trace (PathExtractorUnit.run args meta_path objects unpacked) in
  length (emissions tr)
    = (length (warnings tr)
       + size (list_to_set (map snd (emissions tr)) : gset string))%nat.
Proof.
  intros tr. unfold tr.
  destruct (run_emissions args meta_path objects unpacked Hlist) as [-> ->].
  set (root := if join args then default "" meta_path else "").
  generalize (map (item_at (heap (PathExtractorUnit.run args meta_path objects
                                    unpacked)))
                  (collected args objects unpacked)) as items.
  intros items.
  set (I := fun (paths : gmap string (gset Z)) (evs : list event) =>
       length (emissions evs)
         = (length (warnings evs) + size (dom paths))%nat /\
       dom paths = list_to_set (map snd (emissions evs))).
  enough (I (replay_patterns args root (patterns args) items ∅).1
            ([] ++ (replay_patterns args root (patterns args) items ∅).2))
    as [Hlen Hdom] by (cbn [app] in Hlen, Hdom; by rewrite <- Hdom).
  apply replay_patterns_inv; unfold I.
  - intros paths evs [Hlen Hdom]. rewrite emissions_app, warnings_app. simpl.
    by rewrite !app_nil_r.
  - intros p s d paths evs _ _ [Hlen Hdom].
    rewrite emissions_app, warnings_app, turn_emissions, turn_warnings,
      turn_dom, Hjoin.
    destruct (PathPattern.check p s && negb (in_ledger paths s (Py.adler32 d)));
      [|by rewrite !app_nil_r].
    cbn [andb]. rewrite map_app, list_to_set_app_L, !length_app. simpl.
    rewrite <- Hdom, union_empty_r_L, (union_comm_L (dom paths)).
    split; [|done].
    destruct (bool_decide (is_Some (paths !! s))) eqn:Hsome.
    + apply bool_decide_eq_true in Hsome. apply elem_of_dom in Hsome.
      assert ({[s]} ∪ dom paths = dom paths) as ->
        by (by apply subseteq_union_1_L, singleton_subseteq_l).
      simpl. lia.
    + apply bool_decide_eq_false in Hsome. rewrite <- elem_of_dom in Hsome.
      rewrite size_union by (by apply disjoint_singleton_l).
      rewrite size_singleton. simpl. lia.
  - split; [|by rewrite dom_empty_L]. simpl. by rewrite dom_empty_L, size_empty.
Qed.

Lemma X12_one_warning_per_conflicting_chunk_witness :
  let tr := trace (PathExtractorUnit.run
                     (PathExtractorUnit.init ["*"] false false false) None
                     [ {| path := "x"; data := Concrete ["A"]%byte |};
                       {| path := "x"; data := Concrete ["B"]%byte |};
                       {| path := "y"; data := Concrete ["A"]%byte |} ]
                     [O; 1%nat; 2%nat]) in
  length (emissions tr) = 3%nat /\ length (warnings tr) = 1%nat /\
  length (emissions tr)
    = (length (warnings tr)
       + size (list_to_set (map snd (emissions tr)) : gset string))%nat.
Proof.
  intros tr. split; [reflexivity|]. split; [reflexivity|].
  exact (X12_one_warning_per_conflicting_chunk
           (PathExtractorUnit.init ["*"] false false false) None
           [ {| path := "x"; data := Concrete ["A"]%byte |};
             {| path := "x"; data := Concrete ["B"]%byte |};
             {| path := "y"; data := Concrete ["A"]%byte |} ]
           [O; 1%nat; 2%nat] eq_refl eq_refl).
Defined.

(** ** Wildcard patterns, continued *)

Section WildcardsMore.

Lemma star_matches_all (s : list ascii) : Py.fullmatch [Py.GStar] s = true.
Proof. induction s as [|c s IH]; [done | exact IH]. Qed.

Lemma translate_literal (l : list ascii) :
  forallb literal_char l = true ->
  Py.translate_from O l = map Py.GLit l.
Proof.
  induction l as [|c l IH]; simpl; [done|].
  intros [Hc Hl]%andb_true_iff. unfold literal_char in Hc.
  apply negb_true_iff, orb_false_iff in Hc as [[H1 H2]%orb_false_iff H3].
  by rewrite H1, H2, H3, IH.
Qed.

Lemma fullmatch_literal (l s : list ascii) :
  Py.fullmatch (map Py.GLit l) s = true <-> s = l.
Proof.
  revert s. induction l as [|c l IH]; intros s; simpl.
  - destruct s; split; congruence.
  - destruct s as [|c' s]; [split; congruence|].
    rewrite andb_true_iff, IH, Ascii.eqb_eq. split.
    + by intros [-> ->].
    + by intros [= -> ->].
Qed.

Lemma list_ascii_inj (s1 s2 : string) :
  list_ascii_of_string s1 = list_ascii_of_string s2 -> s1 = s2.
Proof.
  intros H. by rewrite <- (string_of_list_ascii_of_string s1), H,
                       string_of_list_ascii_of_string.
Qed.

Lemma any_ok (bs : list bool) :
  Py.any (map Ok bs) = Ok (existsb id bs).
Proof.
  induction bs as [|b bs IH]; simpl; [done|]. by destruct b.
Qed.

End WildcardsMore.

(** X13: a wildcard pattern without [*], [?] and [[] is matched in full by
    exactly one path, the pattern itself. *)
Theorem X13_literal_pattern_matches_itself_only (pp s : string)
    (Hliteral : forallb literal_char (list_ascii_of_string pp) = true) :
  PathPattern.check (PathPattern.wildcard pp) s = true <-> s = pp.
Proof.
  unfold PathPattern.check, PathPattern.wildcard, PathPattern.init. simpl.
  unfold Py.fnmatch, Py.translate. rewrite (translate_literal _ Hliteral).
  rewrite fullmatch_literal. split; [apply list_ascii_inj | by intros ->].
Qed.

Lemma X13_literal_pattern_matches_itself_only_witness :
  PathPattern.check (PathPattern.wildcard "docs/a.txt") "docs/a.txt" = true.
Proof.
  by apply (X13_literal_pattern_matches_itself_only "docs/a.txt" "docs/a.txt").
Defined.

(** X14: with the default paths every path passes [_check_path]; so in list
    mode a run lists every unpacked object, in the order yielded, and outside
    list mode it leaves no unpacked object with a producer and emits, for
    every unpacked object, a chunk with its label and its checksum. *)
Theorem X14_default_paths_select_everything
    (list_mode join_mode regex : bool) (meta_path : option string)
    (objects : list UnpackResult) (unpacked : list addr) :
  let args := PathExtractorUnit.init default_paths list_mode join_mode regex in
  let st := PathExtractorUnit.run args meta_path objects unpacked in
  (forall s, PathExtractorUnit._check_path args s = true) /\
  (list_mode = true ->
   listed (trace st)
     = map (fun a => Py.encode (label args (default "" meta_path) objects a))
           unpacked) /\
  (list_mode = false ->
   forall a, a ∈ unpacked ->
     deferred (heap st) a = false /\
     exists d,
       (d, label args (default "" meta_path) objects a) ∈ emissions (trace st) /\
       Py.adler32 d = Py.adler32 (bytes_at (heap st) a)).
Proof.
  intros args st.
  assert (Hstar : forall s,
    PathPattern.check (PathPattern.wildcard "*") s = true).
  { intros s. apply star_matches_all. }
  assert (Hall : forall s, PathExtractorUnit._check_path args s = true).
  { intros s. unfold PathExtractorUnit._check_path.
    change (patterns args) with [PathPattern.wildcard "*"].
    cbn [existsb]. by rewrite Hstar. }
  split; [done|]. split.
  - intros ->. unfold st, PathExtractorUnit.run.
    set (st0 := {| heap := objects; clock := O; trace := [] |}).
    rewrite process_passes, (collect_list args unpacked [] st0 eq_refl).
    cbn [fst snd app]. rewrite for_patterns_list by done. cbn [snd].
    change (heap st0) with objects. simpl trace.
    etransitivity;
      [exact (proj1 (listing_events args meta_path objects unpacked
                       (patterns args) (fun p Hp => Hp)))|].
    change (patterns args) with [PathPattern.wildcard "*"].
    cbn [flat_map]. rewrite app_nil_r. f_equal. unfold matching.
    clear. induction unpacked as [|a l IH]; [done|].
    rewrite filter_cons_True by apply star_matches_all. by rewrite IH.
  - intros -> a Ha. split.
    + destruct (run_replay args meta_path objects unpacked eq_refl)
        as (_ & Hset & _).
      apply deferred_settled. rewrite Forall_forall in Hset. apply Hset.
      unfold collected. apply list_elem_of_filter. split; [apply Hall | done].
    + apply (run_match_emitted args meta_path objects unpacked eq_refl a
               (PathPattern.wildcard "*") Ha); [left | apply Hstar].
Qed.

(** X15: on the patterns the unit builds, [_check_reachable] never raises:
    it is true exactly when some pattern has no stop or has a stop the path
    matches.  A pattern built from a string with [regex=True] has no
    attribute [stops]; [_check_reachable] raises AttributeError when it
    comes to such a pattern before a pattern that reaches. *)
Theorem X15_check_reachable_on_unit_patterns
    (paths : list string) (list_mode join_mode regex : bool) (path : string) :
  PathExtractorUnit._check_reachable
    (PathExtractorUnit.init paths list_mode join_mode regex) path
    = Ok (existsb (fun pp => reaches pp path) paths) /\
  (forall re_compile pp before rest,
     existsb (fun q => reaches q path) before = false ->
     PathExtractorUnit._check_reachable
       {| patterns := map PathPattern.wildcard before
                      ++ PathPattern.init re_compile (Str pp) true :: rest;
          list_ := list_mode; join := join_mode |} path
     = Raise AttributeError).
Proof.
  assert (Hreach : forall pp,
    PathPattern.reach (PathPattern.wildcard pp) path = Ok (reaches pp path)).
  { intros pp. unfold PathPattern.reach, reaches. simpl.
    by destruct (stops_of pp). }
  split.
  - unfold PathExtractorUnit._check_reachable. simpl.
    induction paths as [|pp paths IH]; simpl; [done|].
    rewrite Hreach. by destruct (reaches pp path).
  - intros re_compile pp before rest Hnone.
    unfold PathExtractorUnit._check_reachable. simpl.
    induction before as [|q before IH]; simpl in *; [done|].
    apply orb_false_iff in Hnone as [Hq Hnone].
    rewrite Hreach, Hq. by apply IH.
Qed.

(** X16: with neither terminator flag and no end from the offset oracle, a
    read from a non-negative offset never fails: without a count it returns
    the buffer from the offset on, with a count the first [count] bytes of
    that (fewer when the buffer ends before, none when the offset lies
    beyond the buffer). *)
Theorem X16_unterminated_read
    (args : MemoryExtractorUnit.Args) (data : bytes) (start : Z)
    (Hascii : MemoryExtractorUnit.ascii args = false)
    (Hutf16 : MemoryExtractorUnit.utf16 args = false)
    (Hstart : 0 <= start)
    (Hcount : 0 <= MemoryExtractorUnit.count args) :
  MemoryExtractorUnit._read_from_memory args data (start, None)
    = Ok (if MemoryExtractorUnit.count args =? 0
          then drop (Z.to_nat start) data
          else take (Z.to_nat (MemoryExtractorUnit.count args))
                    (drop (Z.to_nat start) data)).
Proof.
  unfold MemoryExtractorUnit._read_from_memory, MemoryExtractorUnit.terminator,
    MemoryExtractorUnit.bound.
  rewrite Hascii, Hutf16. f_equal.
  set (len := Z.of_nat (length data)).
  assert (Hlo : Py.clamp len start = Z.min len start).
  { unfold Py.clamp. assert ((start <? 0) = false) as -> by lia. lia. }
  destruct (Z.le_gt_cases start len) as [Hin|Hout].
  - destruct (MemoryExtractorUnit.count args =? 0) eqn:Hzero.
    + unfold Py.slice. fold len. rewrite Hlo.
      replace (Z.min len start) with start by lia.
      apply take_ge. rewrite length_drop. lia.
    + unfold Py.slice. fold len. rewrite Hlo.
      replace (Z.min len start) with start by lia.
      set (count := MemoryExtractorUnit.count args) in *.
      assert (Hhi : Py.clamp len (start + count) = Z.min len (start + count)).
      { unfold Py.clamp. assert ((start + count <? 0) = false) as -> by lia.
        lia. }
      rewrite Hhi.
      destruct (Z.le_gt_cases (start + count) len) as [Hfit|Hlong].
      * f_equal. lia.
      * rewrite !take_ge; [done | |]; rewrite length_drop; lia.
  - assert (drop (Z.to_nat start) data = []) as ->
      by (apply drop_ge; lia).
    rewrite take_nil.
    assert (Py.slice data start
              (if MemoryExtractorUnit.count args =? 0 then None
               else Some (start + MemoryExtractorUnit.count args)) = [])
      as Hempty.
    { unfold Py.slice. fold len. rewrite Hlo.
      replace (Z.min len start) with len by lia.
      rewrite drop_ge by lia. apply take_nil. }
    by destruct (MemoryExtractorUnit.count args =? 0).
Qed.

Lemma X16_unterminated_read_witness :
  MemoryExtractorUnit._read_from_memory
    {| MemoryExtractorUnit.count := 4;
       MemoryExtractorUnit.utf16 := false;
       MemoryExtractorUnit.ascii := false |}
    ["A"; "B"; "C"]%byte (1, None)
  = Ok ["B"; "C"]%byte.
Proof.
  exact (X16_unterminated_read
           {| MemoryExtractorUnit.count := 4;
              MemoryExtractorUnit.utf16 := false;
              MemoryExtractorUnit.ascii := false |}
           ["A"; "B"; "C"]%byte 1 eq_refl eq_refl ltac:(lia) ltac:(simpl; lia)).
Defined.
